(** * Local-site phase engine of the decentralized VBM regression

    A shallow embedding of [local.py]: the three local computation phases
    ([local_0], [local_1], [local_2]), the helpers they are built from and
    the dispatcher that selects one of them from the incoming message.

    Numbers are IEEE 754 binary64 values (Rocq's primitive floats), Python
    exceptions are an inductive type carried by an error monad, and the
    files the phases read and write live in one path-indexed store that is
    threaded through every phase. *)

From Stdlib Require Import ZArith List String Ascii Bool Lia.
From Stdlib Require Import Floats.
From stdpp Require Import gmap strings.
Import ListNotations.

Set Default Proof Using "Type".
Set Warnings "-register-all".
Local Open Scope string_scope.

(* ===================================================================== *)
(** * Python exceptions and the error monad *)
(* ===================================================================== *)

Module Py.

(** The exceptions the modelled code can raise. *)
Inductive exn : Type :=
| ValueError (msg : string)
| IndexError
| KeyError (key : string)
| TypeError
| OverflowError
| FileNotFoundError (path : string)
| ImageFileError (path : string).

Inductive result (A : Type) : Type :=
| Ok (a : A)
| Raise (e : exn).
Arguments Ok {A} a.
Arguments Raise {A} e.

Definition rbind {A B} (r : result A) (k : A -> result B) : result B :=
  match r with
  | Ok a => k a
  | Raise e => Raise e
  end.

(** [mapM f l]: apply a fallible function to every element, left to
    right, stopping at the first exception. *)
Fixpoint mapM {A B} (f : A -> result B) (l : list A) : result (list B) :=
  match l with
  | [] => Ok []
  | x :: rest =>
      rbind (f x) (fun y => rbind (mapM f rest) (fun ys => Ok (y :: ys)))
  end.

End Py.
Export Py.

Declare Scope py_scope.
Delimit Scope py_scope with py.
Notation "'let*' x ':=' c1 'in' c2" := (rbind c1 (fun x => c2))
  (at level 10, x pattern, c1 at level 100, c2 at level 200) : py_scope.
Local Open Scope py_scope.

(* ===================================================================== *)
(** * Double precision numbers *)
(* ===================================================================== *)

Module F64.

Definition fadd (a b : float) : float := PrimFloat.add a b.
Definition fsub (a b : float) : float := PrimFloat.sub a b.
Definition fmul (a b : float) : float := PrimFloat.mul a b.
Definition fdiv (a b : float) : float := PrimFloat.div a b.

(** [np.square] on one element. *)
Definition square (a : float) : float := fmul a a.

(** Conversion of a Python [int] to a double, as numpy does when an
    integer meets a [float64] array: the nearest double, ties to even
    (an infinity beyond the range of doubles). *)
Definition of_Z (z : Z) : float :=
  SF2Prim (binary_normalize prec emax z 0 false).

Definition of_nat (n : nat) : float := of_Z (Z.of_nat n).

(** Neither NaN nor an infinity. *)
Definition finite (a : float) : bool :=
  negb (PrimFloat.is_nan a) && negb (PrimFloat.is_infinity a).

(** Left-to-right accumulation of [f 0 + f 1 + ... + f (n-1)] starting
    from [0.0].  The order in which numpy, numba and BLAS accumulate is
    theirs to choose, so the code's own reductions ([@], [np.dot],
    [np.sum]) are not this function but the kernels of the
    [Collaborators] interface below; this one serves where a sum is
    written down without an order. *)
Definition fsum (n : nat) (f : nat -> float) : float :=
  fold_left (fun acc k => fadd acc (f k)) (seq 0 n) PrimFloat.zero.

End F64.
Export F64.

(* ===================================================================== *)
(** * JSON documents, as [json.loads] hands them to the program *)
(* ===================================================================== *)

Module Json.

(** A parsed document.  An object keeps its members in insertion order,
    as a Python [dict] does; a [dict] holds each key once, and a lookup
    takes the first member of that name. *)
Inductive json : Type :=
| JNull
| JBool (b : bool)
| JInt (z : Z)
| JFloat (x : float)
| JStr (s : string)
| JArr (elems : list json)
| JObj (members : list (string * json)).

Fixpoint assoc (k : string) (members : list (string * json)) : option json :=
  match members with
  | [] => None
  | (k', v) :: rest => if String.eqb k k' then Some v else assoc k rest
  end.

(** [d[k]] on a dict. *)
Definition getitem (d : json) (k : string) : result json :=
  match d with
  | JObj members =>
      match assoc k members with
      | Some v => Ok v
      | None => Raise (KeyError k)
      end
  | _ => Raise TypeError
  end.

(** [l[i]] on a list, for a non-negative index. *)
Definition getindex (l : json) (i : nat) : result json :=
  match l with
  | JArr elems =>
      match nth_error elems i with
      | Some v => Ok v
      | None => Raise IndexError
      end
  | _ => Raise TypeError
  end.

Definition as_str (v : json) : result string :=
  match v with
  | JStr s => Ok s
  | _ => Raise TypeError
  end.

(** A JSON scalar used where numpy expects a number.  A Python [int]
    too large for a double is an [OverflowError]. *)
Definition as_float (v : json) : result float :=
  match v with
  | JFloat x => Ok x
  | JInt z =>
      let x := F64.of_Z z in
      if PrimFloat.is_infinity x then Raise OverflowError else Ok x
  | JBool b => Ok (if b then PrimFloat.one else PrimFloat.zero)
  | _ => Raise TypeError
  end.

(** A JSON list of numbers used where numpy expects a vector. *)
Definition as_vector (v : json) : result (list float) :=
  match v with
  | JArr elems => mapM as_float elems
  | _ => Raise TypeError
  end.

(** [s == v] for a Python [str] [s]: only an equal string is equal. *)
Definition str_eq (s : string) (v : json) : bool :=
  match v with
  | JStr t => String.eqb s t
  | _ => false
  end.

(** [s in l] for a Python [str] [s] and a list [l]. *)
Definition str_in (s : string) (l : list json) : bool :=
  existsb (str_eq s) l.

End Json.
Export Json.

(* ===================================================================== *)
(** * numpy arrays and pandas tables *)
(* ===================================================================== *)

Module Np.

(** A one-dimensional [float64] array. *)
Definition vector : Type := list float.

(** A two-dimensional [float64] array: its shape and its rows.  The shape
    is kept beside the rows so that an array without rows still has its
    column count. *)
Record ndarray : Type := mk_ndarray {
  shape0 : nat;
  shape1 : nat;
  data : list (list float)
}.

(** [A[i, j]] *)
Definition get (A : ndarray) (i j : nat) : float :=
  nth j (nth i (data A) []) PrimFloat.zero.

(** The [n] by [m] array whose entry [(i, j)] is [f i j]. *)
Definition tabulate (n m : nat) (f : nat -> nat -> float) : ndarray :=
  {| shape0 := n;
     shape1 := m;
     data := map (fun i => map (fun j => f i j) (seq 0 m)) (seq 0 n) |}.

(** [A.T] *)
Definition T (A : ndarray) : ndarray :=
  tabulate (shape1 A) (shape0 A) (fun i j => get A j i).

(** The product of two matrices by a kernel: operands whose inner
    dimensions differ are refused, and the result has the rows of the
    first and the columns of the second operand.  What each entry is,
    to the bit, is the kernel's business: [kernel A B i j] is the entry
    (i, j) the library computes for the operands [A] and [B]. *)
Definition matmul (kernel : ndarray -> ndarray -> nat -> nat -> float)
    (A B : ndarray) : result ndarray :=
  if Nat.eqb (shape1 A) (shape0 B) then
    Ok (tabulate (shape0 A) (shape1 B) (kernel A B))
  else Raise (ValueError "matmul: shape mismatch").

(** [A[:, j]] *)
Definition column (A : ndarray) (j : nat) : vector :=
  map (fun i => get A i j) (seq 0 (shape0 A)).

(** [A.tolist()] *)
Definition tolist (A : ndarray) : json :=
  JArr (map (fun row => JArr (map JFloat row)) (data A)).

(** [v.tolist()] for a one-dimensional array. *)
Definition tolist1 (v : vector) : json := JArr (map JFloat v).

(** An array whose rows agree with its shape, as every array numpy
    builds does. *)
Definition well_formed (A : ndarray) : Prop :=
  length (data A) = shape0 A /\ Forall (fun row => length row = shape1 A) (data A).

(** Every entry of the nested list [XtransposeX_local.tolist()] is finite. *)
Definition all_finite (A : ndarray) : bool :=
  forallb (forallb F64.finite) (data A).

(** ** Arrays of any dimension *)

(** A [float64] array of any number of dimensions: its shape and its
    elements in row-major order.  A scalar has the empty shape. *)
Record volume : Type := mk_volume {
  vshape : list nat;
  vdata : list float
}.

(** The number of elements of an array of the given shape. *)
Definition size (shape : list nat) : nat := fold_right Nat.mul 1 shape.

Fixpoint shape_eqb (s t : list nat) : bool :=
  match s, t with
  | [], [] => true
  | a :: s', b :: t' => Nat.eqb a b && shape_eqb s' t'
  | _, _ => false
  end.

(** A shape with ones put in front, up to [k] dimensions. *)
Definition padded (k : nat) (shape : list nat) : list nat :=
  (repeat 1 (k - length shape) ++ shape)%list.

(** numpy's broadcasting of two shapes, axis by axis from the last:
    equal extents stay, an extent of one stretches, anything else is
    refused. *)
Fixpoint broadcast_dims (s t : list nat) : option (list nat) :=
  match s, t with
  | a :: s', b :: t' =>
      match broadcast_dims s' t' with
      | Some rest =>
          if Nat.eqb a b then Some (a :: rest)
          else if Nat.eqb a 1 then Some (b :: rest)
          else if Nat.eqb b 1 then Some (a :: rest)
          else None
      | None => None
      end
  | [], [] => Some []
  | _, _ => None
  end.

Definition broadcast_shapes (s t : list nat) : option (list nat) :=
  let k := Nat.max (length s) (length t) in
  broadcast_dims (padded k s) (padded k t).

(** Where element [i] of the stretched array comes from in the source:
    the axes are walked from the last, [dims] pairing the extent of
    the target with that of the source; along a stretched axis the
    source stays at its one element. *)
Fixpoint source_index (dims : list (nat * nat)) (i stride : nat) : nat :=
  match dims with
  | [] => 0
  | (t, s) :: rest =>
      (if Nat.eqb s t then (i mod t) * stride else 0)
      + source_index rest (i / t) (stride * s)
  end.

(** The elements of [v] stretched to the shape [target]
    ([np.broadcast_to]); [None] when the shape of [v] does not
    stretch to it. *)
Definition broadcast_to (target : list nat) (v : volume) : option (list float) :=
  if shape_eqb (vshape v) target then Some (vdata v)
  else
    match broadcast_shapes target (vshape v) with
    | Some shape =>
        if shape_eqb shape target then
          let dims := rev (combine target (padded (length target) (vshape v))) in
          Some (map (fun i => nth (source_index dims i 1) (vdata v) PrimFloat.zero)
                  (seq 0 (size target)))
        else None
    | None => None
    end.

(** The shape numpy discovers in a JSON value: a list of values of one
    shape has one more dimension, anything that is not a list is a
    scalar, and lists that do not agree are refused. *)
Fixpoint discovered_shape (v : json) {struct v} : result (list nat) :=
  match v with
  | JArr elems =>
      let* shapes :=
        (fix each (l : list json) : result (list (list nat)) :=
           match l with
           | [] => Ok []
           | x :: rest =>
               let* s := discovered_shape x in
               let* others := each rest in
               Ok (s :: others)
           end) elems in
      match shapes with
      | [] => Ok [0]
      | s :: _ =>
          if forallb (shape_eqb s) shapes then Ok (length shapes :: s)
          else Raise (ValueError "inhomogeneous shape")
      end
  | _ => Ok []
  end.

(** The scalars of a JSON value in row-major order. *)
Fixpoint leaves (v : json) {struct v} : list json :=
  match v with
  | JArr elems =>
      (fix each (l : list json) : list json :=
         match l with
         | [] => []
         | x :: rest => (leaves x ++ each rest)%list
         end) elems
  | _ => [v]
  end.

(** A JSON value as the [float64] operand of a numpy function. *)
Definition asarray (v : json) : result volume :=
  let* shape := discovered_shape v in
  let* elements := mapM as_float (leaves v) in
  Ok {| vshape := shape; vdata := elements |}.

(** [np.subtract(a, b)] *)
Definition subtract (a b : volume) : result volume :=
  match broadcast_shapes (vshape a) (vshape b) with
  | Some shape =>
      match broadcast_to shape a, broadcast_to shape b with
      | Some xs, Some ys =>
          Ok {| vshape := shape;
                vdata := map (fun p => fsub (fst p) (snd p)) (combine xs ys) |}
      | _, _ => Raise (ValueError "operands could not be broadcast together")
      end
  | None => Raise (ValueError "operands could not be broadcast together")
  end.

(** [np.square(a)] *)
Definition vsquare (a : volume) : volume :=
  {| vshape := vshape a; vdata := map square (vdata a) |}.

End Np.
Export Np.

Module Pd.

(** A pandas [DataFrame] with string row labels: the column labels and,
    per row, its label and its values. *)
Record dataframe : Type := mk_dataframe {
  columns : list string;
  records : list (string * list float)
}.

(** [df.index] *)
Definition index (df : dataframe) : list string := map fst (records df).

(** [df.values] *)
Definition values (df : dataframe) : ndarray :=
  {| shape0 := length (records df);
     shape1 := length (columns df);
     data := map snd (records df) |}.

(** [df.drop(index=label, inplace=True)]: every row carrying the label
    goes; a label the table does not have is a [KeyError]. *)
Definition drop (label : string) (df : dataframe) : result dataframe :=
  if existsb (String.eqb label) (index df) then
    Ok {| columns := columns df;
          records := List.filter (fun r => negb (String.eqb label (fst r))) (records df) |}
  else Raise (KeyError label).

End Pd.
Export Pd.

(* ===================================================================== *)
(** * The file store and the process's standard output *)
(* ===================================================================== *)

Module Os.

(** A NIfTI image: header and affine are opaque to this program, which
    only copies them; [fdata] is the array [get_fdata()] returns. *)
Record image : Type := mk_image {
  header : string;
  affine : string;
  fdata : volume
}.

(** What a file holds. *)
Inductive blob : Type :=
| JsonFile (doc : json)
| NpyFile (arr : ndarray)
| NiftiFile (img : image).

(** The state a phase runs in: files by path, and the documents written
    to standard output so far. *)
Record world : Type := mk_world {
  fs : gmap string blob;
  stdout : list json
}.

Definition startswith_sep (s : string) : bool :=
  match s with
  | String c _ => Ascii.eqb c "/"
  | EmptyString => false
  end.

Fixpoint endswith_sep (s : string) : bool :=
  match s with
  | EmptyString => false
  | String c EmptyString => Ascii.eqb c "/"
  | String _ rest => endswith_sep rest
  end.

(** [os.path.join(a, b)] (POSIX) *)
Definition path_join (a b : string) : string :=
  if startswith_sep b then b
  else if String.eqb a "" || endswith_sep a then a ++ b
  else a ++ "/" ++ b.

(** [os.path.join] applied to values taken out of a JSON document: both
    have to be strings. *)
Definition join (a b : json) : result string :=
  let* a := as_str a in
  let* b := as_str b in
  Ok (path_join a b).

(** Computations that read and write the world and may raise. *)
Definition M (A : Type) : Type := world -> result A * world.

Definition ret {A} (a : A) : M A := fun w => (Ok a, w).

Definition bind {A B} (m : M A) (k : A -> M B) : M B :=
  fun w =>
    match m w with
    | (Ok a, w') => k a w'
    | (Raise e, w') => (Raise e, w')
    end.

(** A computation that touches nothing. *)
Definition lift {A} (r : result A) : M A := fun w => (r, w).

(** A computation that only reads. *)
Definition ask {A} (f : world -> result A) : M A := fun w => (f w, w).

Definition write (path : string) (b : blob) : M unit :=
  fun w => (Ok tt, {| fs := <[path := b]> (fs w); stdout := stdout w |}).

(** [sys.stdout.write] *)
Definition stdout_write (doc : json) : M unit :=
  fun w => (Ok tt, {| fs := fs w; stdout := (stdout w ++ [doc])%list |}).

(** [np.save(path, arr)] *)
Definition np_save (path : string) (arr : ndarray) : M unit :=
  write path (NpyFile arr).

(** [np.load(path)] *)
Definition np_load (path : string) : M ndarray :=
  ask (fun w =>
         match fs w !! path with
         | Some (NpyFile arr) => Ok arr
         | Some _ => Raise (ValueError "np.load: not an array file")
         | None => Raise (FileNotFoundError path)
         end).

(** [nib.load(path)] *)
Definition nib_load (path : string) : M image :=
  ask (fun w =>
         match fs w !! path with
         | Some (NiftiFile img) => Ok img
         | Some _ => Raise (ImageFileError path)
         | None => Raise (FileNotFoundError path)
         end).

End Os.
Export Os.

Notation "'let!' x ':=' c1 'in' c2" := (bind c1 (fun x => c2))
  (at level 10, x pattern, c1 at level 100, c2 at level 200) : py_scope.

(* ===================================================================== *)
(** * Repository modules that [local.py] imports *)
(* ===================================================================== *)

Module rw_utils.

(** Modelled from the spec: [rw_utils.read_file] is not part of the
    sources at hand.  The spec describes generic file read and write
    helpers over the run's directories, with the Cache Store key
    [args_file] holding the phase-0 input verbatim; the directory of the
    store named [dir_name] is the message's [state] entry
    [<dir_name>Directory], as [local.py] itself reads [cacheDirectory]. *)
Definition read_file (args : json) (dir_name file_name : string) : M json :=
  let! state_ := lift (getitem args "state") in
  let! dir_ := lift (getitem state_ (dir_name ++ "Directory")) in
  let! path := lift (join dir_ (JStr file_name)) in
  ask (fun w =>
         match fs w !! path with
         | Some (JsonFile doc) => Ok doc
         | Some _ => Raise (ValueError "read_file: not a JSON document")
         | None => Raise (FileNotFoundError path)
         end).

(** Modelled from the spec: [rw_utils.write_file] is not part of the
    sources at hand.  It stores the given document under a fixed name in
    the directory of the store named [dir_name]. *)
Definition write_file (args dict_ : json) (dir_name file_name : string) : M unit :=
  let! state_ := lift (getitem args "state") in
  let! dir_ := lift (getitem state_ (dir_name ++ "Directory")) in
  let! path := lift (join dir_ (JStr file_name)) in
  write path (JsonFile dict_).

End rw_utils.
Export rw_utils.

Module regression.

(** Modelled from the spec: [regression.list_recursive] is not part of
    the sources at hand.  The spec describes a structural search for
    every field with the given name anywhere in the message, at any
    nesting depth, collecting the values found. *)
Fixpoint list_recursive (d : json) (key : string) {struct d} : list json :=
  match d with
  | JObj members =>
      (fix items (kvs : list (string * json)) : list json :=
         match kvs with
         | [] => []
         | (k, v) :: rest =>
             (list_recursive v key
                ++ (if String.eqb k key then [v] else [])
                ++ items rest)%list
         end) members
  | JArr elems =>
      (fix each (l : list json) : list json :=
         match l with
         | [] => []
         | x :: rest => (list_recursive x key ++ each rest)%list
         end) elems
  | _ => []
  end.

(** Modelled from the spec: [regression.sum_squared_error] is not part
    of the sources at hand.  The spec defines it as the sum, over the
    site's subjects, of the squared residual between the response and the
    coefficient vector applied to the design matrix. *)
Definition sum_squared_error (biased_X : ndarray) (y beta_vector : vector) : float :=
  fsum (shape0 biased_X)
    (fun i =>
       square
         (fsub (nth i y PrimFloat.zero)
            (fsum (shape1 biased_X)
               (fun j => fmul (get biased_X i j) (nth j beta_vector PrimFloat.zero))))).

End regression.
Export regression.

(** The remaining imports ([parsers], [local_ancillary]) are collaborators
    whose code is outside the sources at hand: they are taken as an
    interface.  Each may read the files of the run and may raise.

    So are the numerical kernels of the libraries.  The order in which a
    product or a sum is accumulated, and with it the last bits of the
    result, belongs to numba, BLAS and numpy and not to [local.py]; the
    same holds for the encoding nibabel gives the voxels of an image it
    writes.
    - [numba_dot A B i j] is the entry (i, j) of [A @ B] inside a
      function compiled by numba;
    - [np_dot A B i j] is the entry (i, j) of [np.dot(A, B)];
    - [np_sum a] is [np.sum(a)];
    - [nib_on_disk img] is the image [nib.load] returns from a file that
      [nib.save] wrote for [img]: the voxels in the on-disk type of the
      header. *)
Class Collaborators : Type := {
  parse_for_categorical : json -> world -> result json;
  parse_for_covar_info : json -> world -> result (dataframe * json);
  vbm_parser : json -> world -> result (dataframe * dataframe * ndarray);
  mean_and_len_y : ndarray -> result (vector * vector);
  local_stats_to_dict_numba :
    json -> dataframe -> ndarray -> world -> result (json * json);
  add_site_covariates : json -> json -> dataframe -> world -> result dataframe;
  numba_dot : ndarray -> ndarray -> nat -> nat -> float;
  np_dot : ndarray -> ndarray -> nat -> nat -> float;
  np_sum : volume -> float;
  nib_on_disk : image -> image
}.

(* ===================================================================== *)
(** * local.py *)
(* ===================================================================== *)

Module local.
Section Local.

Context `{Collaborators}.

(** [calc_XtransposeX_local]: [biased_X.T @ biased_X] under numba *)
Definition calc_XtransposeX_local (biased_X : ndarray) : result ndarray :=
  matmul numba_dot (T biased_X) biased_X.

(** [calc_Xtransposey_local]: [biased_X.T @ y]; both operands are
    already [float64], so the two [astype] calls change nothing. *)
Definition calc_Xtransposey_local (biased_X y : ndarray) : result ndarray :=
  let mult (a b : ndarray) := matmul numba_dot a b in
  mult (T biased_X) y.

(** ** [average_nifti] *)

(** The test of lines 59-60:
    [np.all(np.isnan(d)) or np.count_nonzero(d) == 0 or d.size == 0] *)
Definition unusable (image_data : volume) : bool :=
  forallb PrimFloat.is_nan (vdata image_data)
  || forallb PrimFloat.is_zero (vdata image_data)
  || Nat.eqb (length (vdata image_data)) 0.

(** [appended_data += image_data].  [appended_data] starts as the
    integer [0] ([None] here), and the first addition makes it a new
    array of the shape of that image.  From then on the addition is
    in place: the array keeps its shape, and an image is added if its
    shape is that shape or stretches to it by numpy's broadcasting;
    any other image is a [ValueError]. *)
Definition iadd (appended_data : option volume) (image_data : volume)
  : result (option volume) :=
  match appended_data with
  | None =>
      Ok (Some {| vshape := vshape image_data;
                  vdata := map (fun x => fadd PrimFloat.zero x) (vdata image_data) |})
  | Some acc =>
      match broadcast_to (vshape acc) image_data with
      | Some stretched =>
          Ok (Some {| vshape := vshape acc;
                      vdata := map (fun p => fadd (fst p) (snd p))
                                 (combine (vdata acc) stretched) |})
      | None => Raise (ValueError "operands could not be broadcast together")
      end
  end.

(** [try: body except FileNotFoundError: handler] *)
Definition try_except_FileNotFoundError {A} (body handler : M A) : M A :=
  fun w =>
    match body w with
    | (Raise (FileNotFoundError _), w') => handler w'
    | other => other
    end.

(** One iteration of the loop of lines 56-67. *)
Definition visit (input_dir : json) (image : string)
    (covar_x : dataframe) (appended_data : option volume)
  : M (dataframe * option volume) :=
  try_except_FileNotFoundError
    (let! path := lift (join input_dir (JStr image)) in
     let! img := nib_load path in
     let image_data := fdata img in
     if unusable image_data then
       let! covar_x := lift (drop image covar_x) in
       ret (covar_x, appended_data)
     else
       let! appended_data := lift (iadd appended_data image_data) in
       ret (covar_x, appended_data))
    (let! covar_x := lift (drop image covar_x) in
     ret (covar_x, appended_data)).

(** The loop of lines 56-67 over the labels the table had when the loop
    started (a pandas index is immutable: dropping rows builds a new
    one and leaves the iteration alone). *)
Fixpoint average_nifti_loop (input_dir : json) (images : list string)
    (covar_x : dataframe) (appended_data : option volume)
  : M (dataframe * option volume) :=
  match images with
  | [] => ret (covar_x, appended_data)
  | image :: rest =>
      let! (covar_x, appended_data) :=
        visit input_dir image covar_x appended_data in
      average_nifti_loop input_dir rest covar_x appended_data
  end.

(** [covar_x.index[0]] *)
Definition index0 (covar_x : dataframe) : result string :=
  match index covar_x with
  | [] => Raise IndexError
  | label :: _ => Ok label
  end.

(** [appended_data / len(covar_x.index)] as the data of an image.  When
    nothing was added, [appended_data] is still the integer [0], which
    [nib.Nifti1Image] does not take as image data. *)
Definition true_divide (appended_data : option volume) (n : nat) : result volume :=
  match appended_data with
  | None => Raise TypeError
  | Some acc =>
      Ok {| vshape := vshape acc;
            vdata := map (fun x => fdiv x (F64.of_nat n)) (vdata acc) |}
  end.

(** [nib.save(img, path)]: the file holds the image as nibabel encodes
    it, which is what a later [nib.load] of the path returns. *)
Definition nib_save (img : image) (path : string) : M unit :=
  write path (NiftiFile (nib_on_disk img)).

(** The state of [average_nifti] after its loop. *)
Definition average_nifti_scan (args : json) : M (json * json * dataframe * option volume) :=
  let! state_ := lift (getitem args "state") in
  let! input_dir := lift (getitem state_ "baseDirectory") in
  let! output_dir := lift (getitem state_ "transferDirectory") in
  let! (covar_x, _) := ask (parse_for_covar_info args) in
  let! (covar_x, appended_data) :=
    average_nifti_loop input_dir (index covar_x) covar_x None in
  ret (input_dir, output_dir, covar_x, appended_data).

Definition average_nifti (args : json) : M unit :=
  let! (input_dir, output_dir, covar_x, appended_data) := average_nifti_scan args in
  let! first := lift (index0 covar_x) in
  let! sample_path := lift (join input_dir (JStr first)) in
  let! sample_image := nib_load sample_path in
  let! avg_nifti := lift (true_divide appended_data (length (index covar_x))) in
  let clipped_img :=
    {| header := header sample_image;
       affine := affine sample_image;
       fdata := avg_nifti |} in
  let! output_file := lift (join output_dir (JStr "avg_nifti.nii")) in
  nib_save clipped_img output_file.

(** ** [local_0] *)

Definition local_0 (args : json) : M json :=
  let! categorical_dict := ask (parse_for_categorical args) in
  let! _ := average_nifti args in
  let! input_ := lift (getitem args "input") in
  let! threshold := lift (getitem input_ "threshold") in
  let! input_ := lift (getitem args "input") in
  let! voxel_size := lift (getitem input_ "voxel_size") in
  let output_dict :=
    JObj [("categorical_dict", categorical_dict);
          ("threshold", threshold);
          ("voxel_size", voxel_size);
          ("avg_nifti", JStr "avg_nifti.nii");
          ("computation_phase", JStr "local_0")] in
  let cache_dict := JObj [] in
  let computation_output_dict :=
    JObj [("output", output_dict); ("cache", cache_dict)] in
  let! _ := write_file args args "cache" "args_file" in
  ret computation_output_dict.

(** ** [local_1] *)

(** The [output_dict] of lines 136-144. *)
Definition local_1_output_dict (XtransposeX_local Xtransposey_local : ndarray)
    (meanY_vector lenY_vector : vector) (local_stats_list : json)
    (X_labels : list string) (regularizer_l2 : json) : json :=
  JObj [("XtransposeX_local", tolist XtransposeX_local);
        ("Xtransposey_local", tolist Xtransposey_local);
        ("mean_y_local", tolist1 meanY_vector);
        ("count_local", tolist1 lenY_vector);
        ("local_stats_list", local_stats_list);
        ("X_labels", JArr (map JStr X_labels));
        ("lambda", regularizer_l2)].

Definition local_1 (args : json) : M json :=
  let! state_ := lift (getitem args "state") in
  let! cache_ := lift (getitem state_ "cacheDirectory") in
  let! original_args := read_file args "cache" "args_file" in
  let! input_ := lift (getitem original_args "input") in
  let! regularizer_l2 := lift (getitem input_ "lambda") in
  let! (encoded_X, X, y) := ask (vbm_parser original_args) in
  let! (meanY_vector, lenY_vector) := lift (mean_and_len_y y) in
  let! (_, local_stats_list) := ask (local_stats_to_dict_numba args encoded_X y) in
  let! augmented_X := ask (add_site_covariates args original_args X) in
  let X_labels := columns augmented_X in
  let biased_X := values augmented_X in
  let! XtransposeX_local := lift (calc_XtransposeX_local biased_X) in
  let! Xtransposey_local := lift (calc_Xtransposey_local biased_X y) in
  let! X_path := lift (join cache_ (JStr "X.npy")) in
  let! _ := np_save X_path biased_X in
  let! y_path := lift (join cache_ (JStr "y.npy")) in
  let! _ := np_save y_path y in
  let output_dict :=
    local_1_output_dict XtransposeX_local Xtransposey_local
      meanY_vector lenY_vector local_stats_list X_labels regularizer_l2 in
  let cache_dict := JObj [("covariates", JStr "X.npy"); ("dependents", JStr "y.npy")] in
  let! _ := write_file args output_dict "output" "local_output" in
  let computation_output_dict :=
    JObj [("output", JObj [("computation_phase", JStr "local_1")]);
          ("cache", cache_dict)] in
  ret computation_output_dict.

(** ** [local_2] *)

(** The body of the loop of lines 200-205 for one voxel: the two values
    appended to [SSE_local] and [SST_local]. *)
Definition local_2_voxel (biased_X y : ndarray) (avg_beta_vector mean_y_global : json)
    (voxel : nat) : result (float * float) :=
  let curr_y := column y voxel in
  let* beta := getindex avg_beta_vector voxel in
  let* beta := as_vector beta in
  let sse := sum_squared_error biased_X curr_y beta in
  let* mean := getindex mean_y_global voxel in
  let* mean := asarray mean in
  let* deviations :=
    subtract {| vshape := [length curr_y]; vdata := curr_y |} mean in
  let sst := np_sum (vsquare deviations) in
  Ok (sse, sst).

(** The [output_dict] of lines 209-213. *)
Definition local_2_output_dict (SSE_local SST_local : list float)
    (varX_matrix_local : ndarray) : json :=
  JObj [("SSE_local", JArr (map JFloat SSE_local));
        ("SST_local", JArr (map JFloat SST_local));
        ("varX_matrix_local", tolist varX_matrix_local)].

Definition local_2 (args : json) : M json :=
  let! state_ := lift (getitem args "state") in
  let! cache_ := lift (getitem args "cache") in
  let! cache_dir := lift (getitem state_ "cacheDirectory") in
  let! input_ := lift (getitem args "input") in
  let! covariates := lift (getitem cache_ "covariates") in
  let! X_path := lift (join cache_dir covariates) in
  let! biased_X := np_load X_path in
  let! dependents := lift (getitem cache_ "dependents") in
  let! y_path := lift (join cache_dir dependents) in
  let! y := np_load y_path in
  let! avg_beta_vector := lift (getitem input_ "avg_beta_vector") in
  let! mean_y_global := lift (getitem input_ "mean_y_global") in
  let! per_voxel :=
    lift (mapM (local_2_voxel biased_X y avg_beta_vector mean_y_global)
            (seq 0 (shape1 y))) in
  let SSE_local := map fst per_voxel in
  let SST_local := map snd per_voxel in
  let! varX_matrix_local := lift (matmul np_dot (T biased_X) biased_X) in
  let output_dict := local_2_output_dict SSE_local SST_local varX_matrix_local in
  let! _ := write_file args output_dict "output" "local_output" in
  let output_dict := JObj [("computation_phase", JStr "local_2")] in
  let cache_dict := JObj [] in
  let computation_output_dict :=
    JObj [("output", output_dict); ("cache", cache_dict)] in
  ret computation_output_dict.

(** ** The dispatcher ([__main__]) *)

(** [not l] for a Python list. *)
Definition py_not (l : list json) : bool :=
  match l with
  | [] => true
  | _ :: _ => false
  end.

(** What [raise ValueError("Error occurred at Local")] raises. *)
Definition protocol_error : exn := ValueError "Error occurred at Local".

Definition main (PARSED_ARGS : json) : M unit :=
  let PHASE_KEY := list_recursive PARSED_ARGS "computation_phase" in
  if py_not PHASE_KEY then
    let! out := local_0 PARSED_ARGS in stdout_write out
  else if str_in "remote_0" PHASE_KEY then
    let! out := local_1 PARSED_ARGS in stdout_write out
  else if str_in "remote_1" PHASE_KEY then
    let! out := local_2 PARSED_ARGS in stdout_write out
  else lift (Raise protocol_error).

End Local.
End local.
Export local.

(* ===================================================================== *)
(** * The specification's vocabulary *)
(* ===================================================================== *)

Module Spec.

(** What the Initialization phase finds when it looks at a subject's
    image file. *)
Inductive verdict : Type :=
| Missing
| Unusable
| Usable (image_data : volume)
| Unreadable.

Definition inspect (w : world) (input_dir image : string) : verdict :=
  match fs w !! path_join input_dir image with
  | None => Missing
  | Some (NiftiFile img) =>
      if unusable (fdata img) then Unusable else Usable (fdata img)
  | Some _ => Unreadable
  end.

(** The image-quality filter: the file is not found, or the volume is
    entirely NaN, entirely zero, or empty. *)
Definition excluded (w : world) (input_dir image : string) : bool :=
  match inspect w input_dir image with
  | Missing | Unusable => true
  | _ => false
  end.

Definition retained (w : world) (input_dir image : string) : bool :=
  match inspect w input_dir image with
  | Usable _ => true
  | _ => false
  end.

(** The images of the retained subjects, in table order. *)
Definition retained_images (w : world) (input_dir : string)
    (labels : list string) : list volume :=
  flat_map
    (fun image =>
       match inspect w input_dir image with
       | Usable image_data => [image_data]
       | _ => []
       end)
    labels.

(** A volume of the given shape: its dimensions, and as many voxels
    as they make. *)
Definition has_shape (shape : list nat) (v : volume) : Prop :=
  vshape v = shape /\ length (vdata v) = size shape.

(** Voxel by voxel sum of two volumes of one shape. *)
Definition add_volumes (a b : volume) : volume :=
  {| vshape := vshape a;
     vdata := map (fun p => fadd (fst p) (snd p)) (combine (vdata a) (vdata b)) |}.

(** Elementwise sum of volumes of the given shape, from an all-zero
    volume on. *)
Definition elementwise_sum (shape : list nat) (images : list volume) : volume :=
  fold_left add_volumes images
    {| vshape := shape; vdata := repeat PrimFloat.zero (size shape) |}.

(** The running sum after one more volume of the same shape; the first
    volume is added to the integer [0]. *)
Definition add_image (appended_data : option volume) (image_data : volume)
  : option volume :=
  match appended_data with
  | None =>
      Some {| vshape := vshape image_data;
              vdata := map (fun x => fadd PrimFloat.zero x) (vdata image_data) |}
  | Some acc => Some (add_volumes acc image_data)
  end.

Definition accumulate (appended_data : option volume) (images : list volume)
  : option volume :=
  fold_left add_image images appended_data.

(** The elementwise sum divided by the number of volumes. *)
Definition group_average (shape : list nat) (images : list volume) : volume :=
  let total := elementwise_sum shape images in
  {| vshape := vshape total;
     vdata := map (fun s => fdiv s (F64.of_nat (length images))) (vdata total) |}.

(** The covariate table without the rows of the given labels. *)
Definition without (labels : list string) (covar_x : dataframe) : dataframe :=
  {| columns := columns covar_x;
     records :=
       List.filter (fun r => negb (existsb (String.eqb (fst r)) labels))
         (records covar_x) |}.

(** The covariate table restricted to the retained subjects. *)
Definition retained_table (w : world) (input_dir : string)
    (covar_x : dataframe) : dataframe :=
  {| columns := columns covar_x;
     records := List.filter (fun r => retained w input_dir (fst r)) (records covar_x) |}.

(** The squared deviations of voxel [v] from [mean], one per subject:
    [(y[i,v] - mean)²]. *)
Definition squared_deviations (y : ndarray) (mean : float) (v : nat) : volume :=
  {| vshape := [shape0 y];
     vdata := map (fun i => square (fsub (get y i v) mean)) (seq 0 (shape0 y)) |}.

(** Brute-force total sum of squares of voxel [v]:
    [Σ_i (y[i,v] - mean)²], the sum being numpy's. *)
Definition brute_force_SST `{Collaborators} (y : ndarray) (mean : float) (v : nat)
  : float :=
  np_sum (squared_deviations y mean v).

(** A nested JSON list of [n] rows of [m] entries each. *)
Definition json_matrix_shape (n m : nat) (v : json) : Prop :=
  exists rows : list (list float),
    v = JArr (map (fun row => JArr (map JFloat row)) rows)
    /\ length rows = n
    /\ Forall (fun row => length row = m) rows.

(** Whether every number of a (nested) JSON list is finite. *)
Fixpoint json_finite (v : json) : bool :=
  match v with
  | JFloat x => F64.finite x
  | JArr elems =>
      (fix each (l : list json) : bool :=
         match l with
         | [] => true
         | x :: rest => json_finite x && each rest
         end) elems
  | _ => true
  end.

(** ** What a run leaves behind and what it was given *)

(** The array a phase left in the cache directory under [file_name]. *)
Definition saved (args : json) (file_name : string) : M ndarray :=
  let! state_ := lift (getitem args "state") in
  let! cache_dir := lift (getitem state_ "cacheDirectory") in
  let! path := lift (join cache_dir (JStr file_name)) in
  np_load path.

(** The cached array the message's [cache] section names under [key]. *)
Definition cached (args : json) (key : string) : M ndarray :=
  let! cache_ := lift (getitem args "cache") in
  let! file_name := lift (getitem cache_ key) in
  let! file_name := lift (as_str file_name) in
  saved args file_name.

(** A field of the numeric document a phase emitted for the aggregator. *)
Definition emitted (args : json) (field : string) : M json :=
  let! doc := read_file args "output" "local_output" in
  lift (getitem doc field).

(** The global coefficient vector the aggregator supplied for voxel [v]. *)
Definition global_beta (args : json) (v : nat) : result vector :=
  let* input_ := getitem args "input" in
  let* avg_beta_vector := getitem input_ "avg_beta_vector" in
  let* beta := getindex avg_beta_vector v in
  as_vector beta.

(** The global mean the aggregator supplied for voxel [v]. *)
Definition global_mean (args : json) (v : nat) : result float :=
  let* input_ := getitem args "input" in
  let* mean_y_global := getitem input_ "mean_y_global" in
  let* mean := getindex mean_y_global v in
  as_float mean.

(** The path of the numeric document is the only one a phase that
    emits it may touch outside its own cache writes. *)
Definition is_local_output (path : string) : Prop :=
  exists dir, path = path_join dir "local_output".

(** Nothing but the numeric document changed, and nothing was printed. *)
Definition only_local_output (w w' : world) : Prop :=
  stdout w' = stdout w
  /\ forall path, ~ is_local_output path -> fs w' !! path = fs w !! path.

(** Every run of [m], successful or not, relates the world before to the
    world after by [R]. *)
Definition preserves {A} (R : world -> world -> Prop) (m : M A) : Prop :=
  forall w r w', m w = (r, w') -> R w w'.

(** The last character of a path. *)
Fixpoint last_char (s : string) : option ascii :=
  match s with
  | EmptyString => None
  | String c EmptyString => Some c
  | String _ rest => last_char rest
  end.

End Spec.
Export Spec.

(* ===================================================================== *)
(** * Sample sites, messages and file stores *)
(* ===================================================================== *)

Module Fixtures.

Local Open Scope float_scope.

(** Column means and row counts of a response matrix. *)
Definition column_stats (y : ndarray) : result (vector * vector) :=
  Ok (map (fun j => fdiv (fsum (shape0 y) (fun i => get y i j)) (F64.of_nat (shape0 y)))
        (seq 0 (shape1 y)),
      map (fun _ => F64.of_nat (shape0 y)) (seq 0 (shape1 y))).

(** Reference kernels: products and sums accumulated from the first
    term to the last, and images stored as 64-bit floats, which the
    file holds as they are. *)
Definition dot_entry (A B : ndarray) (i j : nat) : float :=
  fsum (shape1 A) (fun k => fmul (get A i k) (get B k j)).

Definition sum_in_order (a : volume) : float :=
  fold_left fadd (vdata a) PrimFloat.zero.

Definition stored_as_float64 (img : image) : image := img.

(** A site whose parsers return the given tables whatever they are
    asked, with the reference kernels. *)
Definition site (covar_x design : dataframe) (response : ndarray) : Collaborators :=
  {| parse_for_categorical := fun _ _ => Ok (JObj [("sex", JArr [JStr "F"; JStr "M"])]);
     parse_for_covar_info := fun _ _ => Ok (covar_x, JNull);
     vbm_parser := fun _ _ => Ok (design, design, response);
     mean_and_len_y := column_stats;
     local_stats_to_dict_numba := fun _ _ _ _ => Ok (JNull, JArr []);
     add_site_covariates := fun _ _ X _ => Ok X;
     numba_dot := dot_entry;
     np_dot := dot_entry;
     np_sum := sum_in_order;
     nib_on_disk := stored_as_float64 |}.

Definition directories (root : string) : json :=
  JObj [("baseDirectory", JStr (root ++ "/in"));
        ("transferDirectory", JStr (root ++ "/transfer"));
        ("cacheDirectory", JStr (root ++ "/cache"));
        ("outputDirectory", JStr (root ++ "/out"))].

(** An image file of the given shape and voxels. *)
Definition nifti_of (shape : list nat) (voxels : list float) : blob :=
  NiftiFile {| header := "hdr"; affine := "aff";
               fdata := {| vshape := shape; vdata := voxels |} |}.

(** An image file of one row of voxels. *)
Definition nifti (voxels : list float) : blob :=
  nifti_of [length voxels] voxels.

(** Three subjects with one covariate. *)
Definition covar3 : dataframe :=
  {| columns := ["age"];
     records := [("a.nii", [30]); ("b.nii", [40]); ("c.nii", [50])] |}.

(** The design and response of three subjects: bias and two covariates,
    one voxel. *)
Definition design3 : dataframe :=
  {| columns := ["const"; "sex"; "age"];
     records := [("a.nii", [1; 0; 1]); ("b.nii", [1; 1; 1]); ("c.nii", [1; 0; 2])] |}.

Definition response3 : ndarray :=
  {| shape0 := 3; shape1 := 1; data := [[1]; [2]; [3]] |}.

Definition site3 : Collaborators := site covar3 design3 response3.

(** The message of the Initialization phase. *)
Definition init_args (root : string) (lambda : Z) : json :=
  JObj [("state", directories root);
        ("input", JObj [("threshold", JFloat 0.5);
                        ("voxel_size", JInt 4);
                        ("lambda", JInt lambda)])].

(** The second of three images is entirely NaN. *)
Definition world_one_nan : world :=
  {| fs := {[ "/in/a.nii" := nifti [1; 2];
              "/in/b.nii" := nifti [PrimFloat.nan; PrimFloat.nan];
              "/in/c.nii" := nifti [3; 5] ]};
     stdout := [] |}.

(** No image is usable: one is all zero, one all NaN, one is missing. *)
Definition world_none_usable : world :=
  {| fs := {[ "/in/a.nii" := nifti [0; 0];
              "/in/b.nii" := nifti [PrimFloat.nan; PrimFloat.nan] ]};
     stdout := [] |}.

(** The second image file is not a NIfTI image. *)
Definition world_one_unreadable : world :=
  {| fs := {[ "/in/a.nii" := nifti [1; 2];
              "/in/b.nii" := JsonFile JNull;
              "/in/c.nii" := nifti [3; 5] ]};
     stdout := [] |}.

(** A table that lists the second subject twice, and a world without
    that subject's file. *)
Definition covar_twice : dataframe :=
  {| columns := ["age"];
     records := [("a.nii", [30]); ("b.nii", [40]); ("b.nii", [41])] |}.

Definition site_twice : Collaborators := site covar_twice design3 response3.

Definition world_one_missing : world :=
  {| fs := {[ "/in/a.nii" := nifti [1; 2] ]}; stdout := [] |}.

(** The message of the Statistics phase: the aggregator's round-0 tag. *)
Definition stats_args (root : string) : json :=
  JObj [("state", directories root);
        ("input", JObj [("computation_phase", JStr "remote_0")])].

(** The message of the Decomposition phase: the aggregator's round-1
    tag, the global coefficients and the global mean. *)
Definition decomp_args (root : string) : json :=
  JObj [("state", directories root);
        ("cache", JObj [("covariates", JStr "X.npy"); ("dependents", JStr "y.npy")]);
        ("input", JObj [("avg_beta_vector", JArr [JArr [JFloat 0.5; JInt 1; JFloat 0.25]]);
                        ("mean_y_global", JArr [JInt 2]);
                        ("computation_phase", JStr "remote_1")])].

(** A message carrying both aggregator tags. *)
Definition both_tags : json :=
  JObj [("state", directories "");
        ("input", JObj [("computation_phase", JStr "remote_1");
                        ("previous", JObj [("computation_phase", JStr "remote_0")])])].

(** The document the Statistics phase prints. *)
Definition stats_out : json :=
  JObj [("output", JObj [("computation_phase", JStr "local_1")]);
        ("cache", JObj [("covariates", JStr "X.npy"); ("dependents", JStr "y.npy")])].

(** The worlds the three phases leave behind, one after the other. *)
Definition world_after_init : world :=
  snd (@local_0 site3 (init_args "" 0) world_one_nan).

Definition world_after_stats : world :=
  snd (@local_1 site3 (stats_args "") world_after_init).

Definition world_after_decomp : world :=
  snd (@local_2 site3 (decomp_args "") world_after_stats).

(** Two images of two voxels each, one of shape 1×2×1 and one of
    shape 2×1×1. *)
Definition covar2 : dataframe :=
  {| columns := ["age"]; records := [("a.nii", [30]); ("b.nii", [40])] |}.

Definition site2 : Collaborators := site covar2 design3 response3.

Definition world_two_shapes : world :=
  {| fs := {[ "/in/a.nii" := nifti_of [1; 2; 1]%nat [1; 2];
              "/in/b.nii" := nifti_of [2; 1; 1]%nat [3; 5] ]};
     stdout := [] |}.

(** A one-subject site whose single design entry is 2^600: finite, with
    an infinite square. *)
Definition design_big : dataframe :=
  {| columns := ["const"]; records := [("a.nii", [0x1p600])] |}.

Definition response1 : ndarray :=
  {| shape0 := 1; shape1 := 1; data := [[1]] |}.

Definition site_big : Collaborators := site covar3 design_big response1.

End Fixtures.

(* ===================================================================== *)
(** * Effects of a phase *)
(* ===================================================================== *)

Module Effects.

(** A path names one of the given files in some directory. *)
Definition names_one_of (names : list string) (path : string) : Prop :=
  exists dir name, In name names /\ path = path_join dir name.

(** Nothing was printed, and no file changed but, possibly, files of
    the given names. *)
Definition untouched_but (names : list string) (w w' : world) : Prop :=
  stdout w' = stdout w
  /\ forall path, ~ names_one_of names path -> fs w' !! path = fs w !! path.

(** [m] leaves the world as it found it whenever it raises. *)
Definition all_or_nothing {A} (m : M A) : Prop :=
  forall w e w', m w = (Raise e, w') -> w' = w.

(** Whenever [m] raises, [R] relates the world before to the world
    after. *)
Definition fails_within {A} (R : world -> world -> Prop) (m : M A) : Prop :=
  forall w e w', m w = (Raise e, w') -> R w w'.

(** [m] never raises. *)
Definition never_raises {A} (m : M A) : Prop :=
  forall w e w', m w <> (Raise e, w').

End Effects.
Export Effects.

Module MoreFixtures.

Import Fixtures.
Local Open Scope float_scope.

(** The document the Initialization phase prints at the sample site. *)
Definition init_out : json :=
  JObj [("output",
         JObj [("categorical_dict", JObj [("sex", JArr [JStr "F"; JStr "M"])]);
               ("threshold", JFloat 0.5);
               ("voxel_size", JInt 4);
               ("avg_nifti", JStr "avg_nifti.nii");
               ("computation_phase", JStr "local_0")]);
        ("cache", JObj [])].

End MoreFixtures.

(* ===================================================================== *)
(** * Running computations *)
(* ===================================================================== *)

Arguments path_join : simpl never.

Section Runs.

Lemma bind_Ok_inv {A B} (m : M A) (k : A -> M B) w b w' :
  bind m k w = (Ok b, w') ->
  exists a w1, m w = (Ok a, w1) /\ k a w1 = (Ok b, w').
Proof.
  unfold bind. destruct (m w) as [[a|e] w1]; intros Hk.
  - now exists a, w1.
  - discriminate.
Qed.

Lemma lift_Ok_inv {A} (r : result A) w a w' :
  lift r w = (Ok a, w') -> r = Ok a /\ w' = w.
Proof. unfold lift. intros [= -> ->]. now split. Qed.

Lemma ask_Ok_inv {A} (f : world -> result A) w a w' :
  ask f w = (Ok a, w') -> f w = Ok a /\ w' = w.
Proof. unfold ask. intros [= -> ->]. now split. Qed.

Lemma ret_inv {A} (a b : A) w w' :
  ret a w = (Ok b, w') -> b = a /\ w' = w.
Proof. unfold ret. intros [= -> ->]. now split. Qed.

Lemma bind_eval {A B} (m : M A) (k : A -> M B) w a w1 :
  m w = (Ok a, w1) -> bind m k w = k a w1.
Proof. unfold bind. now intros ->. Qed.

Lemma bind_raise {A B} (m : M A) (k : A -> M B) w e w1 :
  m w = (Raise e, w1) -> bind m k w = (Raise e, w1).
Proof. unfold bind. now intros ->. Qed.

Lemma rbind_Ok_inv {A B} (r : result A) (k : A -> result B) b :
  rbind r k = Ok b -> exists a, r = Ok a /\ k a = Ok b.
Proof. destruct r as [a|e]; simpl; [eauto | discriminate]. Qed.

End Runs.

(** Take a successful run apart, one bind at a time. *)
Ltac step_run H :=
  match type of H with
  | bind _ _ _ = (Ok _, _) =>
      let a := fresh "a" in
      let w := fresh "w" in
      let Hm := fresh "Hm" in
      apply bind_Ok_inv in H; destruct H as (a & w & Hm & H)
  end.

Lemma write_inv path b w u w' :
  write path b w = (Ok u, w') ->
  w' = {| fs := <[path := b]> (fs w); stdout := stdout w |}.
Proof. unfold write. now intros [= _ <-]. Qed.

Lemma stdout_write_inv doc w u w' :
  stdout_write doc w = (Ok u, w') ->
  w' = {| fs := fs w; stdout := (stdout w ++ [doc])%list |}.
Proof. unfold stdout_write. now intros [= _ <-]. Qed.

(** Take a successful run apart down to its reads and writes. *)
Ltac unpack_run :=
  repeat match goal with
    | Hb : bind _ _ _ = (Ok _, _) |- _ => step_run Hb
    | Hl : lift _ _ = (Ok _, _) |- _ =>
        apply lift_Ok_inv in Hl; destruct Hl as [Hl ->]
    | Ha : ask _ _ = (Ok _, _) |- _ =>
        apply ask_Ok_inv in Ha; destruct Ha as [Ha ->]
    | Hr : ret _ _ = (Ok _, _) |- _ =>
        apply ret_inv in Hr; destruct Hr as [-> ->]
    | Hw : write _ _ _ = (Ok _, _) |- _ => apply write_inv in Hw; subst
    | Hp : (let (_, _) := ?p in _) _ = (Ok _, _) |- _ => destruct p
    end.

Lemma join_Ok_inv a b path :
  join a b = Ok path -> exists d n, a = JStr d /\ b = JStr n /\ path = path_join d n.
Proof.
  unfold join. destruct a; simpl; try discriminate.
  destruct b; simpl; try discriminate. intros [= <-]. eauto.
Qed.

(** Name the directory and the file of every path a run has joined, and
    identify the values the run has read twice. *)
Ltac resolve_paths :=
  repeat match goal with
    | Hj : join _ _ = Ok _ |- _ =>
        apply join_Ok_inv in Hj; destruct Hj as (? & ? & ? & ? & ?); simplify_eq
    | H1 : ?x = Ok ?a, H2 : ?x = Ok ?b |- _ =>
        rewrite H1 in H2; simplify_eq
    end.

(** Replay in the goal the dictionary lookups a run has made. *)
Ltac replay_lookups :=
  repeat match goal with
    | Hg : getitem _ _ = Ok _ |- _ => rewrite Hg
    end.

(* ===================================================================== *)
(** * Initialization: the subject filter and the group average *)
(* ===================================================================== *)

Section Initialization.

Context `{Collaborators}.

Variable w : world.
Variable input_dir : string.

Lemma join_str (a b : string) : join (JStr a) (JStr b) = Ok (path_join a b).
Proof. reflexivity. Qed.

Lemma visit_excluded image covar_x appended_data :
  excluded w input_dir image = true ->
  visit (JStr input_dir) image covar_x appended_data w =
    (match drop image covar_x with
     | Ok covar_x' => Ok (covar_x', appended_data)
     | Raise e => Raise e
     end, w).
Proof.
  unfold excluded, inspect, visit, try_except_FileNotFoundError, bind, lift,
    nib_load, ask, ret. rewrite join_str.
  destruct (fs w !! path_join input_dir image) as [[doc|arr|img]|]; try discriminate.
  - destruct (unusable (fdata img)); [|discriminate]. intros _.
    destruct (drop image covar_x) as [c|[]]; reflexivity.
  - intros _. destruct (drop image covar_x) as [c|[]]; reflexivity.
Qed.

Lemma visit_usable image image_data covar_x appended_data :
  inspect w input_dir image = Usable image_data ->
  visit (JStr input_dir) image covar_x appended_data w =
    (match iadd appended_data image_data with
     | Ok appended_data' => Ok (covar_x, appended_data')
     | Raise e => Raise e
     end, w).
Proof.
  unfold inspect, visit, try_except_FileNotFoundError, bind, lift,
    nib_load, ask, ret. rewrite join_str.
  destruct (fs w !! path_join input_dir image) as [[doc|arr|img]|]; try discriminate.
  destruct (unusable (fdata img)) eqn:E; [discriminate|]. intros [= <-].
  unfold iadd. destruct appended_data as [acc|]; [|reflexivity].
  destruct (broadcast_to _ _); reflexivity.
Qed.

Lemma visit_unreadable image covar_x appended_data :
  inspect w input_dir image = Unreadable ->
  visit (JStr input_dir) image covar_x appended_data w =
    (Raise (ImageFileError (path_join input_dir image)), w).
Proof.
  unfold inspect, visit, try_except_FileNotFoundError, bind, lift,
    nib_load, ask, ret. rewrite join_str.
  destruct (fs w !! path_join input_dir image) as [[doc|arr|img]|]; try discriminate;
    try reflexivity.
  destruct (unusable (fdata img)); discriminate.
Qed.

(** *** Dropping rows *)

Lemma drop_in label covar_x :
  In label (index covar_x) -> drop label covar_x = Ok (without [label] covar_x).
Proof.
  intros Hin. unfold drop.
  replace (existsb (String.eqb label) (index covar_x)) with true.
  - unfold without. do 2 f_equal. apply filter_ext. intros [l row]. simpl.
    now rewrite orb_false_r, String.eqb_sym.
  - symmetry. apply existsb_exists. exists label. split; [assumption|].
    apply String.eqb_refl.
Qed.

Lemma drop_not_in label covar_x :
  ~ In label (index covar_x) -> drop label covar_x = Raise (KeyError label).
Proof.
  intros Hnin. unfold drop.
  destruct (existsb (String.eqb label) (index covar_x)) eqn:E; [|reflexivity].
  apply existsb_exists in E. destruct E as [x [Hx Heq]].
  apply String.eqb_eq in Heq. subst x. contradiction.
Qed.

Lemma filter_filter {A} (f g : A -> bool) (l : list A) :
  List.filter f (List.filter g l) = List.filter (fun x => g x && f x) l.
Proof.
  induction l as [|x l IH]; [reflexivity|]. simpl.
  destruct (g x); simpl; [destruct (f x)|]; now rewrite IH.
Qed.

Lemma without_cons label labels covar_x :
  without labels (without [label] covar_x) = without (label :: labels) covar_x.
Proof.
  unfold without. simpl. f_equal. rewrite filter_filter.
  apply filter_ext. intros [l row]. simpl.
  rewrite orb_false_r. now rewrite negb_orb.
Qed.

Lemma without_nil covar_x : without [] covar_x = covar_x.
Proof.
  unfold without. destruct covar_x as [cols recs]. simpl. f_equal.
  induction recs as [|r recs IH]; [reflexivity|]. simpl. now rewrite IH.
Qed.

Lemma existsb_eqb_In (x : string) (l : list string) :
  existsb (String.eqb x) l = true <-> In x l.
Proof.
  rewrite existsb_exists. split.
  - intros [y [Hy Heq]]. apply String.eqb_eq in Heq. now subst.
  - intros Hin. exists x. split; [assumption | apply String.eqb_refl].
Qed.

Lemma index_without x labels covar_x :
  In x (index (without labels covar_x)) <-> In x (index covar_x) /\ ~ In x labels.
Proof.
  unfold index, without. simpl. rewrite !in_map_iff. split.
  - intros [[l row] [Hl Hin]]. simpl in Hl. subst l.
    apply filter_In in Hin. destruct Hin as [Hin Hb]. simpl in Hb.
    split; [now exists (x, row)|].
    intros Hx. apply existsb_eqb_In in Hx. rewrite Hx in Hb. discriminate.
  - intros [[[l row] [Hl Hin]] Hnot]. simpl in Hl. subst l.
    exists (x, row). split; [reflexivity|]. apply filter_In. split; [assumption|].
    simpl. destruct (existsb (String.eqb x) labels) eqn:E; [|reflexivity].
    apply existsb_eqb_In in E. contradiction.
Qed.

(** *** Accumulating images *)

Lemma shape_eqb_refl (s : list nat) : shape_eqb s s = true.
Proof. induction s as [|a s IH]; [reflexivity|]. simpl. now rewrite Nat.eqb_refl. Qed.

Lemma broadcast_to_same (v : volume) : broadcast_to (vshape v) v = Some (vdata v).
Proof. unfold broadcast_to. now rewrite shape_eqb_refl. Qed.

Lemma iadd_same_shape shape appended_data image_data :
  has_shape shape image_data ->
  (forall acc, appended_data = Some acc -> has_shape shape acc) ->
  iadd appended_data image_data = Ok (add_image appended_data image_data).
Proof.
  intros [Hv _] Hacc. unfold iadd, add_image.
  destruct appended_data as [acc|]; [|reflexivity].
  destruct (Hacc acc eq_refl) as [Ha _].
  rewrite Ha, <- Hv, broadcast_to_same. unfold add_volumes. now rewrite Hv, Ha.
Qed.

Lemma add_image_shape shape appended_data image_data :
  has_shape shape image_data ->
  (forall acc, appended_data = Some acc -> has_shape shape acc) ->
  forall acc', add_image appended_data image_data = Some acc' -> has_shape shape acc'.
Proof.
  intros [Hv Hn] Hacc acc'. unfold add_image, has_shape.
  destruct appended_data as [acc|]; intros [= <-]; simpl.
  - destruct (Hacc acc eq_refl) as [Ha Hm]. split; [exact Ha|].
    rewrite length_map, length_combine, Hm, Hn. apply Nat.min_id.
  - split; [exact Hv|]. now rewrite length_map.
Qed.

(** *** The loop *)

Lemma loop_filters shape images :
  forall covar_x appended_data,
    List.NoDup images ->
    incl images (index covar_x) ->
    Forall (fun image => inspect w input_dir image <> Unreadable) images ->
    Forall (has_shape shape) (retained_images w input_dir images) ->
    (forall acc, appended_data = Some acc -> has_shape shape acc) ->
    average_nifti_loop (JStr input_dir) images covar_x appended_data w =
      (Ok (without (List.filter (excluded w input_dir) images) covar_x,
           accumulate appended_data (retained_images w input_dir images)), w).
Proof.
  induction images as [|image rest IH]; intros covar_x appended_data Hnd Hincl Hread Hsize Hacc.
  - simpl. unfold ret. now rewrite without_nil.
  - simpl average_nifti_loop.
    apply NoDup_cons_iff in Hnd. destruct Hnd as [Hnotin Hnd].
    apply Forall_cons_iff in Hread. destruct Hread as [Hread1 Hread].
    assert (Himage : In image (index covar_x)) by (apply Hincl; now left).
    simpl List.filter. simpl retained_images in *. unfold excluded at 1.
    destruct (inspect w input_dir image) as [| |image_data|] eqn:E.
    + erewrite bind_eval
        by (rewrite visit_excluded by (unfold excluded; now rewrite E);
            rewrite (drop_in _ _ Himage); reflexivity).
      cbv beta iota. rewrite IH; try assumption.
      * now rewrite without_cons.
      * intros x Hx. apply index_without. split; [apply Hincl; now right|].
        intros [->|[]]. contradiction.
    + erewrite bind_eval
        by (rewrite visit_excluded by (unfold excluded; now rewrite E);
            rewrite (drop_in _ _ Himage); reflexivity).
      cbv beta iota. rewrite IH; try assumption.
      * now rewrite without_cons.
      * intros x Hx. apply index_without. split; [apply Hincl; now right|].
        intros [->|[]]. contradiction.
    + simpl app in Hsize. apply Forall_cons_iff in Hsize. destruct Hsize as [Hv Hsize].
      erewrite bind_eval
        by (rewrite (visit_usable _ _ _ _ E);
            rewrite (iadd_same_shape shape _ _ Hv Hacc); reflexivity).
      cbv beta iota. rewrite IH; try assumption.
      * reflexivity.
      * intros x Hx. apply Hincl. now right.
      * now apply add_image_shape.
    + contradiction.
Qed.

Lemma loop_all_excluded images :
  forall covar_x appended_data,
    Forall (fun image => excluded w input_dir image = true) images ->
    (exists k,
        average_nifti_loop (JStr input_dir) images covar_x appended_data w =
          (Raise (KeyError k), w))
    \/ average_nifti_loop (JStr input_dir) images covar_x appended_data w =
          (Ok (without images covar_x, appended_data), w).
Proof.
  induction images as [|image rest IH]; intros covar_x appended_data Hall.
  - right. simpl. unfold ret. now rewrite without_nil.
  - apply Forall_cons_iff in Hall. destruct Hall as [Hex Hall].
    simpl average_nifti_loop.
    destruct (in_dec string_dec image (index covar_x)) as [Hin|Hnin].
    + erewrite bind_eval
        by (rewrite (visit_excluded _ _ _ Hex), (drop_in _ _ Hin); reflexivity).
      cbv beta iota.
      destruct (IH (without [image] covar_x) appended_data Hall) as [[k Hk]|Hok].
      * left. now exists k.
      * right. now rewrite Hok, without_cons.
    + left. exists image. apply bind_raise.
      now rewrite (visit_excluded _ _ _ Hex), (drop_not_in _ _ Hnin).
Qed.

Lemma index_without_all covar_x : index (without (index covar_x) covar_x) = [].
Proof.
  destruct (index (without (index covar_x) covar_x)) as [|x l] eqn:E; [reflexivity|].
  assert (Hx : In x (index (without (index covar_x) covar_x)))
    by (rewrite E; now left).
  apply index_without in Hx. destruct Hx as [Hin Hnot]. contradiction.
Qed.

Lemma excluded_readable image :
  excluded w input_dir image = true -> inspect w input_dir image <> Unreadable.
Proof. unfold excluded. destruct (inspect w input_dir image); congruence. Qed.

Lemma all_excluded_filter images :
  Forall (fun image => excluded w input_dir image = true) images ->
  List.filter (excluded w input_dir) images = images
  /\ retained_images w input_dir images = [].
Proof.
  induction 1 as [|image rest Hex Hall [IH1 IH2]]; [now split|].
  simpl. rewrite Hex, IH1, IH2. split; [reflexivity|].
  unfold excluded in Hex. destruct (inspect w input_dir image); try discriminate; reflexivity.
Qed.

(** *** The whole of [average_nifti] *)

Lemma scan_eval args state_ output_dir covar_x meta :
  getitem args "state" = Ok state_ ->
  getitem state_ "baseDirectory" = Ok (JStr input_dir) ->
  getitem state_ "transferDirectory" = Ok output_dir ->
  parse_for_covar_info args w = Ok (covar_x, meta) ->
  average_nifti_scan args w =
    match average_nifti_loop (JStr input_dir) (index covar_x) covar_x None w with
    | (Ok (covar_x', appended_data), w') =>
        (Ok (JStr input_dir, output_dir, covar_x', appended_data), w')
    | (Raise e, w') => (Raise e, w')
    end.
Proof.
  intros Hstate Hin Hout Hparse.
  unfold average_nifti_scan, bind, lift, ask, ret.
  rewrite Hstate, Hin, Hout, Hparse.
  destruct (average_nifti_loop _ _ _ _ w) as [[[c a]|e] w']; reflexivity.
Qed.

Lemma average_nifti_all_excluded args state_ output_dir covar_x meta :
  getitem args "state" = Ok state_ ->
  getitem state_ "baseDirectory" = Ok (JStr input_dir) ->
  getitem state_ "transferDirectory" = Ok output_dir ->
  parse_for_covar_info args w = Ok (covar_x, meta) ->
  Forall (fun image => excluded w input_dir image = true) (index covar_x) ->
  exists e,
    average_nifti args w = (Raise e, w)
    /\ (e = IndexError \/ exists k, e = KeyError k)
    /\ (List.NoDup (index covar_x) -> e = IndexError).
Proof.
  intros Hstate Hin Hout Hparse Hall.
  pose proof (scan_eval _ _ _ _ _ Hstate Hin Hout Hparse) as Hscan.
  assert (Hempty :
    average_nifti_loop (JStr input_dir) (index covar_x) covar_x None w =
      (Ok (without (index covar_x) covar_x, None), w) ->
    average_nifti args w = (Raise IndexError, w)).
  { intros Hloop. rewrite Hloop in Hscan. unfold average_nifti.
    erewrite bind_eval by exact Hscan. cbv beta iota.
    apply bind_raise. unfold lift, index0. now rewrite index_without_all. }
  destruct (loop_all_excluded (index covar_x) covar_x None Hall) as [[k Hk]|Hok].
  - exists (KeyError k). split; [|split].
    + rewrite Hk in Hscan. unfold average_nifti. now apply bind_raise.
    + right. now exists k.
    + intros Hnd. exfalso.
      destruct (all_excluded_filter _ Hall) as [Hf Hr].
      rewrite (loop_filters []) in Hk; try assumption.
      * discriminate.
      * apply incl_refl.
      * eapply List.Forall_impl; [|exact Hall]. intros a. apply excluded_readable.
      * rewrite Hr. constructor.
      * discriminate.
  - exists IndexError. split; [|split].
    + now apply Hempty.
    + now left.
    + reflexivity.
Qed.

(** *** The retained subjects *)

Lemma accumulate_Some acc images :
  accumulate (Some acc) images = Some (fold_left add_volumes images acc).
Proof.
  revert acc. induction images as [|v rest IH]; intros acc; [reflexivity|].
  simpl. apply IH.
Qed.

Lemma add_to_zeros (v : list float) :
  map (fun p => fadd (fst p) (snd p)) (combine (repeat PrimFloat.zero (length v)) v)
  = map (fun x => fadd PrimFloat.zero x) v.
Proof. induction v as [|x v IH]; [reflexivity|]. simpl. now rewrite IH. Qed.

Lemma accumulate_None_sum shape images :
  images <> [] ->
  Forall (has_shape shape) images ->
  accumulate None images = Some (elementwise_sum shape images).
Proof.
  destruct images as [|v rest]; [congruence|]. intros _ Hshape.
  apply Forall_cons_iff in Hshape. destruct Hshape as [[Hv Hn] _].
  unfold elementwise_sum. simpl. unfold add_volumes at 2. simpl.
  rewrite <- Hn, add_to_zeros, Hv. apply accumulate_Some.
Qed.

Lemma retained_not_excluded image :
  inspect w input_dir image <> Unreadable ->
  retained w input_dir image = negb (excluded w input_dir image).
Proof.
  unfold retained, excluded.
  destruct (inspect w input_dir image); intros Hread; try reflexivity.
  now contradiction Hread.
Qed.

Lemma without_excluded covar_x :
  Forall (fun image => inspect w input_dir image <> Unreadable) (index covar_x) ->
  without (List.filter (excluded w input_dir) (index covar_x)) covar_x
  = retained_table w input_dir covar_x.
Proof.
  intros Hread. unfold without, retained_table. f_equal.
  apply filter_ext_in. intros [label row] Hin. simpl.
  assert (Hlabel : In label (index covar_x))
    by (unfold index; apply in_map_iff; now exists (label, row)).
  rewrite List.Forall_forall in Hread.
  rewrite (retained_not_excluded _ (Hread _ Hlabel)). f_equal.
  destruct (excluded w input_dir label) eqn:E.
  - apply existsb_eqb_In. apply filter_In. now split.
  - destruct (existsb _ _) eqn:E'; [|reflexivity].
    apply existsb_eqb_In, filter_In in E'. destruct E' as [_ E']. congruence.
Qed.

Lemma retained_count covar_x :
  length (index (retained_table w input_dir covar_x))
  = length (retained_images w input_dir (index covar_x)).
Proof.
  unfold index, retained_table, retained_images. simpl.
  induction (records covar_x) as [|[label row] recs IH]; [reflexivity|].
  simpl. unfold retained at 1.
  destruct (inspect w input_dir label); simpl; now rewrite IH.
Qed.

Lemma retained_table_index covar_x image :
  In image (index (retained_table w input_dir covar_x)) <->
  In image (index covar_x) /\ retained w input_dir image = true.
Proof.
  unfold index, retained_table. simpl. rewrite !in_map_iff. split.
  - intros [[l row] [<- Hin]]. apply filter_In in Hin. destruct Hin as [Hin Hr].
    split; [now exists (l, row) | exact Hr].
  - intros [[[l row] [<- Hin]] Hr]. exists (l, row). split; [reflexivity|].
    apply filter_In. now split.
Qed.

Lemma retained_file image :
  retained w input_dir image = true ->
  exists img, fs w !! path_join input_dir image = Some (NiftiFile img).
Proof.
  unfold retained, inspect.
  destruct (fs w !! path_join input_dir image) as [[doc|arr|img]|]; try discriminate.
  intros _. now exists img.
Qed.

(** C4, as the code has it: with unique subject labels, image files
    that are NIfTI images where they exist and retained volumes of one
    common shape, the loop raises nothing; a subject whose image file is
    not found, or whose volume is entirely NaN, entirely zero or empty,
    leaves the covariate table and adds nothing to the running sum,
    which is the elementwise sum of the retained images; and when a
    subject is retained, [average_nifti] succeeds and hands nibabel,
    to be saved under [avg_nifti.nii] with the header and affine of
    the first retained subject's image, that sum divided by the number
    of retained subjects; the file holds it as nibabel encodes it. *)
Theorem group_average_of_retained args state_ output_dir covar_x meta shape :
  getitem args "state" = Ok state_ ->
  getitem state_ "baseDirectory" = Ok (JStr input_dir) ->
  getitem state_ "transferDirectory" = Ok (JStr output_dir) ->
  parse_for_covar_info args w = Ok (covar_x, meta) ->
  List.NoDup (index covar_x) ->
  Forall (fun image => inspect w input_dir image <> Unreadable) (index covar_x) ->
  Forall (has_shape shape) (retained_images w input_dir (index covar_x)) ->
  let images := retained_images w input_dir (index covar_x) in
  average_nifti_scan args w =
    (Ok (JStr input_dir, JStr output_dir,
         retained_table w input_dir covar_x,
         accumulate None images), w)
  /\ (forall image,
        excluded w input_dir image = true ->
        ~ In image (index (retained_table w input_dir covar_x)))
  /\ length (index (retained_table w input_dir covar_x)) = length images
  /\ (images <> [] ->
      accumulate None images = Some (elementwise_sum shape images)
      /\ exists first sample,
          index0 (retained_table w input_dir covar_x) = Ok first
          /\ fs w !! path_join input_dir first = Some (NiftiFile sample)
          /\ average_nifti args w =
               (Ok tt,
                {| fs :=
                     <[path_join output_dir "avg_nifti.nii" :=
                         NiftiFile
                           (nib_on_disk
                              {| header := header sample;
                                 affine := affine sample;
                                 fdata := group_average shape images |})]> (fs w);
                   stdout := stdout w |})).
Proof.
  intros Hstate Hin Hout Hparse Hnd Hread Hshape images.
  assert (Hscan :
    average_nifti_scan args w =
      (Ok (JStr input_dir, JStr output_dir,
           retained_table w input_dir covar_x,
           accumulate None images), w)).
  { rewrite (scan_eval _ _ _ _ _ Hstate Hin Hout Hparse).
    rewrite (loop_filters shape); try assumption.
    - now rewrite (without_excluded _ Hread).
    - apply incl_refl.
    - discriminate. }
  split; [exact Hscan|].
  split.
  { intros image Hex Himage. apply retained_table_index in Himage.
    destruct Himage as [_ Hret]. unfold excluded in Hex. unfold retained in Hret.
    destruct (inspect w input_dir image); discriminate. }
  split; [apply retained_count|].
  intros Hsome.
  pose proof (accumulate_None_sum shape _ Hsome Hshape) as Hsum.
  split; [exact Hsum|].
  pose proof (retained_count covar_x) as Hcount. fold images in Hcount.
  destruct (index (retained_table w input_dir covar_x)) as [|first others] eqn:Eidx.
  { exfalso. apply Hsome. unfold images in Hcount.
    destruct (retained_images w input_dir (index covar_x));
      [reflexivity | discriminate]. }
  assert (Hfirst : retained w input_dir first = true).
  { apply (retained_table_index covar_x). rewrite Eidx. now left. }
  destruct (retained_file _ Hfirst) as [sample Hsample].
  exists first, sample. split; [|split; [exact Hsample|]].
  - unfold index0. now rewrite Eidx.
  - unfold average_nifti.
    erewrite bind_eval by exact Hscan. cbv beta iota.
    erewrite bind_eval by (unfold lift, index0; rewrite Eidx; reflexivity).
    erewrite bind_eval by (unfold lift; rewrite join_str; reflexivity).
    erewrite bind_eval by (unfold nib_load, ask; rewrite Hsample; reflexivity).
    erewrite bind_eval
      by (unfold lift, true_divide; fold images; rewrite Hsum; reflexivity).
    erewrite bind_eval by (unfold lift; rewrite join_str; reflexivity).
    unfold nib_save, write, group_average. rewrite Eidx, Hcount. reflexivity.
Qed.

(** C3: when the image-quality filter excludes every subject, the
    Initialization phase fails: [local_0] raises before it writes
    anything, the exception is Python's [IndexError] of
    [covar_x.index[0]] (a [KeyError] of the table only when a label
    occurs twice), and it differs from the dispatcher's protocol error;
    run through the dispatcher, no output document is produced. *)
Theorem no_subject_left_is_fatal args state_ output_dir covar_x meta categorical_dict :
  getitem args "state" = Ok state_ ->
  getitem state_ "baseDirectory" = Ok (JStr input_dir) ->
  getitem state_ "transferDirectory" = Ok output_dir ->
  parse_for_categorical args w = Ok categorical_dict ->
  parse_for_covar_info args w = Ok (covar_x, meta) ->
  Forall (fun image => excluded w input_dir image = true) (index covar_x) ->
  exists e,
    local_0 args w = (Raise e, w)
    /\ e <> protocol_error
    /\ (e = IndexError \/ exists k, e = KeyError k)
    /\ (List.NoDup (index covar_x) -> e = IndexError)
    /\ (list_recursive args "computation_phase" = [] ->
        main args w = (Raise e, w)).
Proof.
  intros Hstate Hin Hout Hcat Hparse Hall.
  destruct (average_nifti_all_excluded _ _ _ _ _ Hstate Hin Hout Hparse Hall)
    as (e & Hrun & Hkind & Hnd).
  assert (Hlocal : local_0 args w = (Raise e, w)).
  { unfold local_0.
    erewrite bind_eval by (unfold ask; rewrite Hcat; reflexivity).
    now apply bind_raise. }
  exists e. repeat split; try assumption.
  - destruct Hkind as [->|[k ->]]; discriminate.
  - intros Htags. unfold main. rewrite Htags. simpl py_not. cbv iota.
    now apply bind_raise.
Qed.

End Initialization.

(* ===================================================================== *)
(** * The dispatcher *)
(* ===================================================================== *)

Section Dispatcher.
Context `{Collaborators}.

Lemma str_in_In (s : string) (l : list json) :
  str_in s l = true <-> In (JStr s) l.
Proof.
  unfold str_in. rewrite existsb_exists. split.
  - intros [v [Hv Heq]]. destruct v; simpl in Heq; try discriminate.
    apply String.eqb_eq in Heq. now subst.
  - intros Hin. exists (JStr s). split; [assumption|]. simpl. apply String.eqb_refl.
Qed.

(** C1: the dispatcher runs exactly one handler, chosen from the phase
    tags found in the message: none found, Initialization; else the
    round-0 tag among them, Statistics; else the round-1 tag among them,
    Decomposition; otherwise it raises the protocol error and leaves
    files and standard output as they were.  The four cases exclude one
    another and leave no message out. *)
Theorem dispatcher_selection (PARSED_ARGS : json) :
  let PHASE_KEY := list_recursive PARSED_ARGS "computation_phase" in
  (PHASE_KEY = [] ->
     main PARSED_ARGS = (let! out := local_0 PARSED_ARGS in stdout_write out))
  /\ (PHASE_KEY <> [] -> In (JStr "remote_0") PHASE_KEY ->
     main PARSED_ARGS = (let! out := local_1 PARSED_ARGS in stdout_write out))
  /\ (PHASE_KEY <> [] -> ~ In (JStr "remote_0") PHASE_KEY ->
      In (JStr "remote_1") PHASE_KEY ->
     main PARSED_ARGS = (let! out := local_2 PARSED_ARGS in stdout_write out))
  /\ (PHASE_KEY <> [] -> ~ In (JStr "remote_0") PHASE_KEY ->
      ~ In (JStr "remote_1") PHASE_KEY ->
     forall w, main PARSED_ARGS w = (Raise protocol_error, w))
  /\ (PHASE_KEY = []
      \/ (PHASE_KEY <> [] /\ In (JStr "remote_0") PHASE_KEY)
      \/ (PHASE_KEY <> [] /\ ~ In (JStr "remote_0") PHASE_KEY
          /\ In (JStr "remote_1") PHASE_KEY)
      \/ (PHASE_KEY <> [] /\ ~ In (JStr "remote_0") PHASE_KEY
          /\ ~ In (JStr "remote_1") PHASE_KEY)).
Proof.
  intros PHASE_KEY. unfold main. fold PHASE_KEY.
  split; [|split; [|split; [|split]]].
  - intros ->. reflexivity.
  - intros Hne H0. destruct PHASE_KEY as [|t ts] eqn:E; [congruence|].
    simpl py_not. cbv iota. apply str_in_In in H0. rewrite H0. reflexivity.
  - intros Hne H0 H1. destruct PHASE_KEY as [|t ts] eqn:E; [congruence|].
    simpl py_not. cbv iota.
    destruct (str_in "remote_0" (t :: ts)) eqn:E0.
    + apply str_in_In in E0. contradiction.
    + apply str_in_In in H1. rewrite H1. reflexivity.
  - intros Hne H0 H1 w. destruct PHASE_KEY as [|t ts] eqn:E; [congruence|].
    simpl py_not. cbv iota.
    destruct (str_in "remote_0" (t :: ts)) eqn:E0.
    + apply str_in_In in E0. contradiction.
    + destruct (str_in "remote_1" (t :: ts)) eqn:E1.
      * apply str_in_In in E1. contradiction.
      * reflexivity.
  - destruct PHASE_KEY as [|t ts] eqn:E; [now left|]. right.
    assert (Hne : t :: ts <> []) by discriminate.
    destruct (str_in "remote_0" (t :: ts)) eqn:E0.
    + left. split; [exact Hne|]. now apply str_in_In.
    + right.
      assert (H0 : ~ In (JStr "remote_0") (t :: ts))
        by (intros Hin; apply str_in_In in Hin; congruence).
      destruct (str_in "remote_1" (t :: ts)) eqn:E1.
      * left. repeat split; try assumption. now apply str_in_In.
      * right. repeat split; try assumption.
        intros Hin. apply str_in_In in Hin. congruence.
Qed.
(** C9: when both aggregator tags occur among the collected phase
    tags, the Statistics phase runs: the round-0 tag is tested first. *)
Theorem round_0_tag_takes_precedence (PARSED_ARGS : json) :
  In (JStr "remote_0") (list_recursive PARSED_ARGS "computation_phase") ->
  In (JStr "remote_1") (list_recursive PARSED_ARGS "computation_phase") ->
  main PARSED_ARGS = (let! out := local_1 PARSED_ARGS in stdout_write out).
Proof.
  intros H0 _. unfold main.
  destruct (list_recursive PARSED_ARGS "computation_phase") as [|t ts];
    [contradiction|].
  simpl py_not. cbv iota. apply str_in_In in H0. now rewrite H0.
Qed.

End Dispatcher.

(* ===================================================================== *)
(** * Arrays *)
(* ===================================================================== *)

Section Arrays.

Lemma tabulate_ext n m (f g : nat -> nat -> float) :
  (forall i j, i < n -> j < m -> f i j = g i j) -> tabulate n m f = tabulate n m g.
Proof.
  intros Hfg. unfold tabulate. f_equal.
  apply map_ext_in. intros i Hi. apply map_ext_in. intros j Hj.
  apply in_seq in Hi, Hj. apply Hfg; lia.
Qed.

Lemma get_tabulate n m f i j :
  i < n -> j < m -> get (tabulate n m f) i j = f i j.
Proof.
  intros Hi Hj. unfold get, tabulate. simpl.
  rewrite (nth_indep _ [] (map (fun j => f 0 j) (seq 0 m)))
    by (now rewrite length_map, length_seq).
  rewrite (map_nth (fun i => map (fun j => f i j) (seq 0 m)) (seq 0 n) 0 i).
  rewrite seq_nth by assumption. simpl.
  rewrite (nth_indep _ PrimFloat.zero (f i 0))
    by (now rewrite length_map, length_seq).
  rewrite (map_nth (fun j => f i j) (seq 0 m) 0 j).
  now rewrite seq_nth.
Qed.

Lemma tabulate_well_formed n m f : well_formed (tabulate n m f).
Proof.
  unfold well_formed, tabulate. simpl. split.
  - now rewrite length_map, length_seq.
  - apply List.Forall_forall. intros row Hrow. apply in_map_iff in Hrow.
    destruct Hrow as [i [<- _]]. now rewrite length_map, length_seq.
Qed.

Lemma column_length A j : length (column A j) = shape0 A.
Proof. unfold column. now rewrite length_map, length_seq. Qed.

Lemma column_nth A j i :
  i < shape0 A -> nth i (column A j) PrimFloat.zero = get A i j.
Proof.
  intros Hi. unfold column.
  rewrite (nth_indep _ PrimFloat.zero (get A 0 j))
    by (now rewrite length_map, length_seq).
  rewrite (map_nth (fun i => get A i j) (seq 0 (shape0 A)) 0 i).
  now rewrite seq_nth.
Qed.

Lemma tolist_shape A :
  well_formed A -> json_matrix_shape (shape0 A) (shape1 A) (tolist A).
Proof. intros [Hrows Hcols]. exists (data A). now repeat split. Qed.



Lemma matmul_inv kernel A B C :
  matmul kernel A B = Ok C ->
  shape1 A = shape0 B /\ C = tabulate (shape0 A) (shape1 B) (kernel A B).
Proof.
  unfold matmul. destruct (Nat.eqb_spec (shape1 A) (shape0 B)); [|discriminate].
  intros [= <-]. now split.
Qed.

(** Whether XᵗX is its own transpose is the kernel's to decide: the
    product is symmetric exactly when the kernel returns the same
    double for the entries (i, j) and (j, i), which holds for a kernel
    that accumulates both in one order and need not hold otherwise. *)
Lemma XtransposeX_mirror `{Collaborators} biased_X XtransposeX_local :
  calc_XtransposeX_local biased_X = Ok XtransposeX_local ->
  (T XtransposeX_local = XtransposeX_local <->
   forall i j, i < shape1 biased_X -> j < shape1 biased_X ->
     numba_dot (T biased_X) biased_X j i = numba_dot (T biased_X) biased_X i j).
Proof.
  unfold calc_XtransposeX_local. intros Hrun.
  apply matmul_inv in Hrun. destruct Hrun as [_ ->].
  unfold T at 1 3. simpl shape0. simpl shape1. split.
  - intros Heq i j Hi Hj.
    apply (f_equal (fun A => get A i j)) in Heq.
    rewrite !get_tabulate in Heq by assumption. exact Heq.
  - intros Hmirror. apply tabulate_ext. intros i j Hi Hj.
    rewrite get_tabulate by assumption. now apply Hmirror.
Qed.

End Arrays.

(* ===================================================================== *)
(** * Decomposition: residual sums against the global parameters *)
(* ===================================================================== *)

Section Decomposition.

Context `{Collaborators}.

Lemma mapM_seq {B} (f : nat -> result B) n :
  forall s ys,
    mapM f (seq s n) = Ok ys ->
    length ys = n
    /\ forall v, v < n -> exists y, f (s + v) = Ok y /\ nth_error ys v = Some y.
Proof.
  induction n as [|n IH]; intros s ys Hrun; simpl in Hrun.
  - injection Hrun as <-. split; [reflexivity|]. intros v Hv. lia.
  - apply rbind_Ok_inv in Hrun. destruct Hrun as (y0 & Hy0 & Hrun).
    apply rbind_Ok_inv in Hrun. destruct Hrun as (rest & Hrest & Hrun).
    injection Hrun as <-. destruct (IH _ _ Hrest) as [Hlen Hnth].
    split; [simpl; now rewrite Hlen|].
    intros [|v] Hv.
    + exists y0. rewrite Nat.add_0_r. now split.
    + destruct (Hnth v ltac:(lia)) as (y & Hy & Hv').
      exists y. split; [|exact Hv']. now rewrite <- Nat.add_succ_comm.
Qed.

Lemma np_load_inv w path arr :
  match fs w !! path with
  | Some (NpyFile arr) => Ok arr
  | None => Raise (FileNotFoundError path)
  | _ => Raise (ValueError "np.load: not an array file")
  end = Ok arr ->
  fs w !! path = Some (NpyFile arr).
Proof.
  destruct (fs w !! path) as [[doc|a|img]|]; try discriminate. now intros [= ->].
Qed.

(** *** Subtracting a number from a column *)

Lemma asarray_number m mean :
  as_float m = Ok mean -> asarray m = Ok {| vshape := []; vdata := [mean] |}.
Proof.
  intros Hm. unfold asarray.
  assert (Hscalar : discovered_shape m = Ok [] /\ leaves m = [m])
    by (destruct m; try discriminate; now split).
  destruct Hscalar as [-> ->]. simpl. now rewrite Hm.
Qed.

Lemma broadcast_vector_scalar n :
  broadcast_shapes [n] [] = Some [n].
Proof.
  unfold broadcast_shapes, padded. simpl.
  destruct (Nat.eqb_spec n 1) as [->|Hn]; [reflexivity|].
  destruct (Nat.eqb n 1) eqn:E; [|reflexivity].
  apply Nat.eqb_eq in E. contradiction.
Qed.

Lemma broadcast_to_scalar n mean :
  broadcast_to [n] {| vshape := []; vdata := [mean] |}
  = Some (map (fun _ => mean) (seq 0 n)).
Proof.
  unfold broadcast_to. simpl vshape. simpl shape_eqb at 1. cbv iota.
  rewrite broadcast_vector_scalar, shape_eqb_refl.
  unfold padded, size. simpl. rewrite Nat.mul_1_r. f_equal.
  apply map_ext. intros i.
  destruct n as [|[|n]]; [reflexivity | | reflexivity].
  now rewrite Nat.mod_1_r.
Qed.

Lemma combine_constant (xs : list float) (mean : float) (f : float * float -> float) :
  forall s,
    map f (combine xs (map (fun _ => mean) (seq s (length xs))))
    = map (fun x => f (x, mean)) xs.
Proof.
  induction xs as [|x xs IH]; intros s; [reflexivity|].
  simpl. now rewrite IH.
Qed.

Lemma subtract_number (xs : list float) (mean : float) :
  subtract {| vshape := [length xs]; vdata := xs |} {| vshape := []; vdata := [mean] |}
  = Ok {| vshape := [length xs]; vdata := map (fun x => fsub x mean) xs |}.
Proof.
  unfold subtract. simpl vshape.
  rewrite broadcast_vector_scalar, broadcast_to_scalar.
  change [length xs] with (vshape {| vshape := [length xs]; vdata := xs |}) at 1.
  rewrite broadcast_to_same. simpl vdata.
  now rewrite combine_constant.
Qed.

(** What one iteration of the voxel loop appends. *)
Lemma local_2_voxel_inv X y avg_beta_vector mean_y_global v sse sst :
  local_2_voxel X y avg_beta_vector mean_y_global v = Ok (sse, sst) ->
  exists beta,
    (let* b := getindex avg_beta_vector v in as_vector b) = Ok beta
    /\ sse = sum_squared_error X (column y v) beta
    /\ forall mean,
        (let* m := getindex mean_y_global v in as_float m) = Ok mean ->
        sst = brute_force_SST y mean v.
Proof.
  unfold local_2_voxel. intros Hrun.
  apply rbind_Ok_inv in Hrun. destruct Hrun as (b & Hb & Hrun).
  apply rbind_Ok_inv in Hrun. destruct Hrun as (beta & Hbeta & Hrun).
  apply rbind_Ok_inv in Hrun. destruct Hrun as (m & Hm & Hrun).
  apply rbind_Ok_inv in Hrun. destruct Hrun as (mean_array & Hmean & Hrun).
  apply rbind_Ok_inv in Hrun. destruct Hrun as (deviations & Hdev & Hrun).
  injection Hrun as <- <-.
  exists beta. rewrite Hb, Hm. simpl. repeat split; try assumption.
  intros mean Hnumber.
  rewrite (asarray_number _ _ Hnumber) in Hmean. injection Hmean as <-.
  rewrite subtract_number in Hdev. injection Hdev as <-.
  unfold brute_force_SST, squared_deviations, vsquare. simpl.
  rewrite column_length. unfold column. now rewrite !map_map.
Qed.

(** A successful run of [local_2], read off its code. *)
Lemma local_2_run args w out w' :
  local_2 args w = (Ok out, w') ->
  exists X y per_voxel varX_matrix_local,
    cached args "covariates" w = (Ok X, w)
    /\ cached args "dependents" w = (Ok y, w)
    /\ length per_voxel = shape1 y
    /\ (forall v, v < shape1 y ->
        exists beta sst,
          global_beta args v = Ok beta
          /\ nth_error per_voxel v =
               Some (sum_squared_error X (column y v) beta, sst)
          /\ forall mean,
              global_mean args v = Ok mean -> sst = brute_force_SST y mean v)
    /\ matmul np_dot (T X) X = Ok varX_matrix_local
    /\ read_file args "output" "local_output" w' =
         (Ok (local_2_output_dict (map fst per_voxel) (map snd per_voxel)
                varX_matrix_local), w')
    /\ out = JObj [("output", JObj [("computation_phase", JStr "local_2")]);
                   ("cache", JObj [])].
Proof.
  intros Hrun. unfold local_2, np_load, write_file in Hrun. unpack_run.
  resolve_paths.
  repeat match goal with
    | Hl : match fs _ !! _ with _ => _ end = Ok _ |- _ => apply np_load_inv in Hl
    end.
  match goal with
  | Hv : mapM (local_2_voxel ?X ?y _ _) _ = Ok ?per_voxel,
    Hx : matmul _ _ _ = Ok ?varX |- _ =>
      destruct (mapM_seq _ _ _ _ Hv) as [Hlen Hvox];
      exists X, y, per_voxel, varX
  end.
  repeat split.
  - unfold cached, saved, bind, lift, np_load, ask. replay_lookups. simpl.
    replay_lookups. simpl.
    match goal with Hl : fs w !! _ = Some (NpyFile _) |- _ => now rewrite Hl end.
  - unfold cached, saved, bind, lift, np_load, ask. replay_lookups. simpl.
    replay_lookups. simpl.
    match goal with Hl : fs w !! _ = Some (NpyFile _) |- _ => now rewrite Hl end.
  - exact Hlen.
  - intros v Hv. destruct (Hvox v Hv) as ([sse sst] & Hvoxel & Hnth).
    simpl in Hvoxel.
    destruct (local_2_voxel_inv _ _ _ _ _ _ _ Hvoxel)
      as (beta & Hb & -> & Hmn).
    exists beta, sst. unfold global_beta, global_mean.
    replay_lookups. simpl. replay_lookups. simpl. now repeat split.
  - assumption.
  - unfold read_file, bind, lift, ask. replay_lookups. simpl.
    now rewrite lookup_insert_eq.
Qed.

(** C5: for every voxel [v] of the cached response matrix, the emitted
    [SSE_local[v]] is [sum_squared_error] of the cached design matrix,
    column [v] of the cached response and the supplied global
    coefficient vector [β_v], which is the sum over the site's
    subjects of [(y[i,v] - Σ_j X[i,j]·β_v[j])²]; and, the supplied
    global mean of the voxel being a number, the emitted
    [SST_local[v]] is numpy's sum over the site's subjects of
    [(y[i,v] - mean_v)²]. *)
Theorem decomposition_correct args w out w' :
  local_2 args w = (Ok out, w') ->
  exists X y SSE_local SST_local,
    cached args "covariates" w = (Ok X, w)
    /\ cached args "dependents" w = (Ok y, w)
    /\ emitted args "SSE_local" w' = (Ok (JArr (map JFloat SSE_local)), w')
    /\ emitted args "SST_local" w' = (Ok (JArr (map JFloat SST_local)), w')
    /\ forall v, v < shape1 y ->
        exists beta,
          global_beta args v = Ok beta
          /\ nth_error SSE_local v = Some (sum_squared_error X (column y v) beta)
          /\ forall mean,
              global_mean args v = Ok mean ->
              nth_error SST_local v = Some (brute_force_SST y mean v).
Proof.
  intros Hrun.
  destruct (local_2_run _ _ _ _ Hrun)
    as (X & y & per_voxel & varX & HX & Hy & Hlen & Hvox & _ & Hdoc & _).
  exists X, y, (map fst per_voxel), (map snd per_voxel).
  repeat split; try assumption.
  - unfold emitted. erewrite bind_eval by exact Hdoc. reflexivity.
  - unfold emitted. erewrite bind_eval by exact Hdoc. reflexivity.
  - intros v Hv. destruct (Hvox v Hv) as (beta & sst & Hb & Hnth & Hm).
    exists beta. repeat split; try assumption.
    + rewrite nth_error_map, Hnth. reflexivity.
    + intros mean Hmean. rewrite nth_error_map, Hnth. simpl.
      now rewrite (Hm mean Hmean).
Qed.

(** C10: the emitted [SSE_local] and [SST_local] have one entry per
    column of the cached response matrix, and the emitted
    [varX_matrix_local] is a p by p nested list, p being the number of
    columns of the cached design matrix. *)
Theorem decomposition_shapes args w out w' :
  local_2 args w = (Ok out, w') ->
  exists X y SSE_local SST_local varX_matrix_local,
    cached args "covariates" w = (Ok X, w)
    /\ cached args "dependents" w = (Ok y, w)
    /\ emitted args "SSE_local" w' = (Ok (JArr (map JFloat SSE_local)), w')
    /\ length SSE_local = shape1 y
    /\ emitted args "SST_local" w' = (Ok (JArr (map JFloat SST_local)), w')
    /\ length SST_local = shape1 y
    /\ emitted args "varX_matrix_local" w' = (Ok varX_matrix_local, w')
    /\ json_matrix_shape (shape1 X) (shape1 X) varX_matrix_local.
Proof.
  intros Hrun.
  destruct (local_2_run _ _ _ _ Hrun)
    as (X & y & per_voxel & varX & HX & Hy & Hlen & _ & HvarX & Hdoc & _).
  exists X, y, (map fst per_voxel), (map snd per_voxel), (tolist varX).
  repeat split; try assumption.
  - unfold emitted. erewrite bind_eval by exact Hdoc. reflexivity.
  - now rewrite length_map.
  - unfold emitted. erewrite bind_eval by exact Hdoc. reflexivity.
  - now rewrite length_map.
  - unfold emitted. erewrite bind_eval by exact Hdoc. reflexivity.
  - apply matmul_inv in HvarX. destruct HvarX as [_ ->].
    apply (tolist_shape (tabulate (shape1 X) (shape1 X) _)).
    apply tabulate_well_formed.
Qed.

(** *** The frame of the phase *)

Lemma only_local_output_refl w : only_local_output w w.
Proof. now split. Qed.

Lemma only_local_output_trans w1 w2 w3 :
  only_local_output w1 w2 -> only_local_output w2 w3 -> only_local_output w1 w3.
Proof.
  intros [Hs1 Hf1] [Hs2 Hf2]. split; [congruence|].
  intros path Hpath. now rewrite Hf2, Hf1.
Qed.

Lemma preserves_bind {A B} (m : M A) (k : A -> M B) :
  preserves only_local_output m ->
  (forall a, (exists w w1, m w = (Ok a, w1)) -> preserves only_local_output (k a)) ->
  preserves only_local_output (bind m k).
Proof.
  intros Hm Hk w r w' Hrun. unfold bind in Hrun.
  destruct (m w) as [[a|e] w1] eqn:E.
  - eapply only_local_output_trans; [exact (Hm _ _ _ E)|].
    eapply Hk; [|exact Hrun]. eauto.
  - injection Hrun as <- <-. exact (Hm _ _ _ E).
Qed.

Lemma preserves_lift {A} (r : result A) : preserves only_local_output (lift r).
Proof. intros w r' w' [= _ <-]. apply only_local_output_refl. Qed.

Lemma preserves_ask {A} (f : world -> result A) : preserves only_local_output (ask f).
Proof. intros w r' w' [= _ <-]. apply only_local_output_refl. Qed.

Lemma preserves_ret {A} (a : A) : preserves only_local_output (ret a).
Proof. intros w r' w' [= _ <-]. apply only_local_output_refl. Qed.

Lemma preserves_write_file args doc :
  preserves only_local_output (write_file args doc "output" "local_output").
Proof.
  unfold write_file.
  apply preserves_bind; [apply preserves_lift | intros state_ _].
  apply preserves_bind; [apply preserves_lift | intros dir_ _].
  apply preserves_bind; [apply preserves_lift | intros path (w0 & w1 & Hpath)].
  apply lift_Ok_inv in Hpath. destruct Hpath as [Hpath _].
  apply join_Ok_inv in Hpath. destruct Hpath as (d & n & _ & [= <-] & ->).
  intros w r w' [= _ <-]. split; [reflexivity|].
  intros path Hpath. simpl. apply lookup_insert_ne.
  intros <-. apply Hpath. now exists d.
Qed.

Lemma local_2_preserves args : preserves only_local_output (local_2 args).
Proof.
  unfold local_2, np_load.
  repeat (apply preserves_bind;
          [first [apply preserves_lift | apply preserves_ask
                 | apply preserves_write_file]
          | intros ? _]).
  apply preserves_ret.
Qed.

(** *** Paths *)

Lemma last_char_append (s t : string) :
  t <> "" -> last_char (s ++ t) = last_char t.
Proof.
  intros Ht. induction s as [|c s IH]; [reflexivity|].
  simpl. rewrite IH. destruct (s ++ t) eqn:E; [|reflexivity].
  exfalso. destruct s; simpl in E; [now apply Ht | discriminate].
Qed.

Lemma path_join_last dir name :
  name <> "" -> last_char (path_join dir name) = last_char name.
Proof.
  intros Hname. unfold path_join.
  destruct (startswith_sep name); [reflexivity|].
  destruct (_ || _).
  - now apply last_char_append.
  - rewrite last_char_append; [now apply last_char_append|].
    simpl. discriminate.
Qed.

Lemma cache_entry_not_local_output cache_dir name :
  In name ["args_file"; "X.npy"; "y.npy"] ->
  ~ is_local_output (path_join cache_dir name).
Proof.
  intros Hname [dir Heq].
  apply (f_equal last_char) in Heq.
  rewrite (path_join_last dir "local_output") in Heq by discriminate.
  simpl in Hname.
  destruct Hname as [<-|[<-|[<-|[]]]];
    rewrite path_join_last in Heq by discriminate; discriminate.
Qed.

(** C6: whatever its input and whether it succeeds or raises, [local_2]
    changes no file but the numeric document [local_output] (so the
    cache entries [args_file], [X.npy] and [y.npy] are as the earlier
    phases left them), prints nothing itself, and the [cache] section of
    the document it returns is empty. *)
Theorem local_2_writes_no_cache args w :
  let r := local_2 args w in
  (forall path, ~ is_local_output path -> fs (snd r) !! path = fs w !! path)
  /\ (forall cache_dir name,
        In name ["args_file"; "X.npy"; "y.npy"] ->
        fs (snd r) !! path_join cache_dir name = fs w !! path_join cache_dir name)
  /\ stdout (snd r) = stdout w
  /\ (forall out, fst r = Ok out -> getitem out "cache" = Ok (JObj [])).
Proof.
  intros r. subst r.
  destruct (local_2 args w) as [res w'] eqn:Hrun.
  destruct (local_2_preserves args _ _ _ Hrun) as [Hout Hframe].
  simpl. repeat split.
  - exact Hframe.
  - intros cache_dir name Hname. apply Hframe.
    now apply cache_entry_not_local_output.
  - exact Hout.
  - intros out ->.
    destruct (local_2_run _ _ _ _ Hrun) as (_ & _ & _ & _ & _ & _ & _ & _ & _ & _ & ->).
    reflexivity.
Qed.

End Decomposition.

(* ===================================================================== *)
(** * Statistics: the local sufficient statistics *)
(* ===================================================================== *)

Section Statistics.

Context `{Collaborators}.

Lemma append_inj_r (p a b : string) : (p ++ a = p ++ b)%string -> a = b.
Proof. induction p as [|c p IH]; simpl; [trivial|]. intros [= E]. now apply IH. Qed.

Lemma path_join_inj dir a b :
  startswith_sep a = false -> startswith_sep b = false ->
  path_join dir a = path_join dir b -> a = b.
Proof.
  unfold path_join. intros -> ->.
  destruct (_ || _); intros E; apply append_inj_r in E; [exact E|].
  now apply append_inj_r in E.
Qed.

Lemma path_join_last_neq dir dir' a b :
  a <> "" -> b <> "" -> last_char a <> last_char b ->
  path_join dir a <> path_join dir' b.
Proof.
  intros Ha Hb Hneq Heq. apply Hneq.
  rewrite <- (path_join_last dir a Ha), <- (path_join_last dir' b Hb).
  now rewrite Heq.
Qed.

(** A successful run of [local_1], read off its code: the matrices it
    caches, the products it computes from them and the document it
    emits. *)
Lemma local_1_run args w out w' :
  local_1 args w = (Ok out, w') ->
  exists X y XtransposeX_local Xtransposey_local,
    saved args "X.npy" w' = (Ok X, w')
    /\ saved args "y.npy" w' = (Ok y, w')
    /\ calc_XtransposeX_local X = Ok XtransposeX_local
    /\ calc_Xtransposey_local X y = Ok Xtransposey_local
    /\ emitted args "XtransposeX_local" w' = (Ok (tolist XtransposeX_local), w')
    /\ emitted args "Xtransposey_local" w' = (Ok (tolist Xtransposey_local), w').
Proof.
  intros Hrun. unfold local_1, np_save, write_file, read_file in Hrun.
  unpack_run. resolve_paths.
  match goal with
  | HX : calc_XtransposeX_local ?X = Ok ?XtX,
    Hy : calc_Xtransposey_local ?X ?y = Ok ?Xty |- _ => exists X, y, XtX, Xty
  end.
  cbn [fs stdout].
  match goal with
  | |- context [<[path_join ?o "local_output" := _]> (<[path_join ?c "y.npy" := _]> _)] =>
      assert (HXy : path_join c "X.npy" <> path_join c "y.npy")
        by (intros E; apply path_join_inj in E; [discriminate | reflexivity ..]);
      assert (HXo : path_join o "local_output" <> path_join c "X.npy")
        by (apply path_join_last_neq; discriminate);
      assert (Hyo : path_join o "local_output" <> path_join c "y.npy")
        by (apply path_join_last_neq; discriminate)
  end.
  repeat split; try assumption.
  - unfold saved, bind, lift, np_load, ask. replay_lookups. simpl.
    rewrite lookup_insert_ne by assumption.
    rewrite lookup_insert_ne by (intros E; now apply HXy).
    now rewrite lookup_insert_eq.
  - unfold saved, bind, lift, np_load, ask. replay_lookups. simpl.
    rewrite lookup_insert_ne by assumption.
    now rewrite lookup_insert_eq.
  - unfold emitted, read_file, bind, lift, ask. replay_lookups. simpl.
    now rewrite lookup_insert_eq.
  - unfold emitted, read_file, bind, lift, ask. replay_lookups. simpl.
    now rewrite lookup_insert_eq.
Qed.

Lemma json_finite_tolist A : json_finite (tolist A) = all_finite A.
Proof.
  unfold tolist, all_finite. cbn [json_finite].
  induction (data A) as [|row rows IH]; [reflexivity|].
  cbn [map forallb]. rewrite <- IH. f_equal.
  cbn [json_finite]. induction row as [|x row IHrow]; [reflexivity|].
  cbn [map forallb json_finite]. now rewrite <- IHrow.
Qed.

(** C2, as the code has it: [local_1] checks nothing about the products
    it computes.  Whenever the phase succeeds, the emitted
    [XtransposeX_local] and [Xtransposey_local] are the computed XᵗX and
    Xᵗy of the cached design and response matrices, entry for entry, so
    they hold only finite values exactly when the computed products do. *)
Theorem statistics_emitted_as_computed args w out w' :
  local_1 args w = (Ok out, w') ->
  exists X y XtransposeX_local Xtransposey_local,
    saved args "X.npy" w' = (Ok X, w')
    /\ saved args "y.npy" w' = (Ok y, w')
    /\ calc_XtransposeX_local X = Ok XtransposeX_local
    /\ calc_Xtransposey_local X y = Ok Xtransposey_local
    /\ emitted args "XtransposeX_local" w' = (Ok (tolist XtransposeX_local), w')
    /\ emitted args "Xtransposey_local" w' = (Ok (tolist Xtransposey_local), w')
    /\ json_finite (tolist XtransposeX_local) = all_finite XtransposeX_local
    /\ json_finite (tolist Xtransposey_local) = all_finite Xtransposey_local.
Proof.
  intros Hrun.
  destruct (local_1_run _ _ _ _ Hrun) as (X & y & XtX & Xty & HX & Hy & Hc1 & Hc2 & He1 & He2).
  exists X, y, XtX, Xty. repeat split; try assumption; apply json_finite_tolist.
Qed.

End Statistics.

(* ===================================================================== *)
(** * The theorems at work on sample runs *)
(* ===================================================================== *)

Section Samples.

Import Fixtures.

(** C9 on a message that carries both tags. *)
Lemma round_0_tag_takes_precedence_sample :
  @main site3 both_tags = (let! out := @local_1 site3 both_tags in stdout_write out).
Proof.
  apply (@round_0_tag_takes_precedence site3 both_tags); simpl; auto.
Defined.

(** C3 on a site none of whose three images is usable. *)
Lemma no_subject_left_is_fatal_sample :
  exists e,
    @local_0 site3 (init_args "" 0) world_none_usable = (Raise e, world_none_usable)
    /\ e <> @protocol_error
    /\ (e = IndexError \/ exists k, e = KeyError k)
    /\ (List.NoDup (index covar3) -> e = IndexError)
    /\ (list_recursive (init_args "" 0) "computation_phase" = [] ->
        @main site3 (init_args "" 0) world_none_usable = (Raise e, world_none_usable)).
Proof.
  apply (@no_subject_left_is_fatal site3 world_none_usable "/in" (init_args "" 0)
           (directories "") (JStr "/transfer") covar3 JNull
           (JObj [("sex", JArr [JStr "F"; JStr "M"])]));
    try reflexivity.
  repeat constructor.
Defined.

(** C4 on a site one of whose three images is entirely NaN. *)
Lemma group_average_of_retained_sample :
  let images := retained_images world_one_nan "/in" (index covar3) in
  @average_nifti_scan site3 (init_args "" 0) world_one_nan =
    (Ok (JStr "/in", JStr "/transfer",
         retained_table world_one_nan "/in" covar3,
         accumulate None images), world_one_nan)
  /\ (forall image,
        excluded world_one_nan "/in" image = true ->
        ~ In image (index (retained_table world_one_nan "/in" covar3)))
  /\ length (index (retained_table world_one_nan "/in" covar3)) = length images
  /\ (images <> [] ->
      accumulate None images = Some (elementwise_sum [2] images)
      /\ exists first sample,
          index0 (retained_table world_one_nan "/in" covar3) = Ok first
          /\ fs world_one_nan !! path_join "/in" first = Some (NiftiFile sample)
          /\ @average_nifti site3 (init_args "" 0) world_one_nan =
               (Ok tt,
                {| fs :=
                     <[path_join "/transfer" "avg_nifti.nii" :=
                         NiftiFile
                           (@nib_on_disk site3
                              {| header := header sample;
                                 affine := affine sample;
                                 fdata := group_average [2] images |})]>
                       (fs world_one_nan);
                   stdout := stdout world_one_nan |})).
Proof.
  apply (@group_average_of_retained site3 world_one_nan "/in" (init_args "" 0)
           (directories "") "/transfer" covar3 JNull [2]);
    try reflexivity.
  - simpl. repeat (constructor; [simpl; intuition discriminate|]). constructor.
  - repeat constructor; vm_compute; discriminate.
  - repeat constructor.
Defined.

(** The sample's average: of the volumes [1, 2] and [3, 5], the NaN
    volume left out. *)
Example sample_group_average :
  group_average [2] (retained_images world_one_nan "/in" (index covar3))
  = {| vshape := [2]; vdata := [2%float; 3.5%float] |}.
Proof. vm_compute. reflexivity. Qed.

(** Volumes of as many voxels but of other shapes do not add up: of
    two images of two voxels each, one of shape 1×2×1 and one of shape
    2×1×1, the second fails the in-place addition. *)
Example mismatched_shapes_abort :
  @average_nifti site2 (init_args "" 0) world_two_shapes
  = (Raise (ValueError "operands could not be broadcast together"),
     world_two_shapes).
Proof. vm_compute. reflexivity. Qed.

(** The Decomposition phase succeeds on the sample site. *)
Lemma sample_decomposition_runs :
  @local_2 site3 (decomp_args "") world_after_stats =
    (Ok (JObj [("output", JObj [("computation_phase", JStr "local_2")]);
               ("cache", JObj [])]),
     world_after_decomp).
Proof. vm_compute. reflexivity. Defined.

(** C5 on the sample site. *)
Lemma decomposition_correct_sample :
  exists X y SSE_local SST_local,
    cached (decomp_args "") "covariates" world_after_stats = (Ok X, world_after_stats)
    /\ cached (decomp_args "") "dependents" world_after_stats = (Ok y, world_after_stats)
    /\ emitted (decomp_args "") "SSE_local" world_after_decomp
         = (Ok (JArr (map JFloat SSE_local)), world_after_decomp)
    /\ emitted (decomp_args "") "SST_local" world_after_decomp
         = (Ok (JArr (map JFloat SST_local)), world_after_decomp)
    /\ forall v, v < shape1 y ->
        exists beta,
          global_beta (decomp_args "") v = Ok beta
          /\ nth_error SSE_local v = Some (sum_squared_error X (column y v) beta)
          /\ forall mean,
              global_mean (decomp_args "") v = Ok mean ->
              nth_error SST_local v = Some (@brute_force_SST site3 y mean v).
Proof.
  exact (@decomposition_correct site3 _ _ _ _ sample_decomposition_runs).
Defined.

(** The sample's sums: against the global coefficients (0.5, 1, 0.25)
    the residuals of the three subjects are 0.25, 0.25 and 2, and
    against the global mean 2 the deviations are -1, 0 and 1. *)
Example sample_decomposition_sums :
  fst (emitted (decomp_args "") "SSE_local" world_after_decomp)
    = Ok (JArr [JFloat 4.125%float])
  /\ fst (emitted (decomp_args "") "SST_local" world_after_decomp)
    = Ok (JArr [JFloat 2%float]).
Proof. split; vm_compute; reflexivity. Qed.

(** C10 on the sample site. *)
Lemma decomposition_shapes_sample :
  exists X y SSE_local SST_local varX_matrix_local,
    cached (decomp_args "") "covariates" world_after_stats = (Ok X, world_after_stats)
    /\ cached (decomp_args "") "dependents" world_after_stats = (Ok y, world_after_stats)
    /\ emitted (decomp_args "") "SSE_local" world_after_decomp
         = (Ok (JArr (map JFloat SSE_local)), world_after_decomp)
    /\ length SSE_local = shape1 y
    /\ emitted (decomp_args "") "SST_local" world_after_decomp
         = (Ok (JArr (map JFloat SST_local)), world_after_decomp)
    /\ length SST_local = shape1 y
    /\ emitted (decomp_args "") "varX_matrix_local" world_after_decomp
         = (Ok varX_matrix_local, world_after_decomp)
    /\ json_matrix_shape (shape1 X) (shape1 X) varX_matrix_local.
Proof.
  exact (@decomposition_shapes site3 _ _ _ _ sample_decomposition_runs).
Defined.

(** The Statistics phase succeeds on the sample site. *)
Lemma sample_statistics_run :
  @local_1 site3 (stats_args "") world_after_init = (Ok stats_out, world_after_stats).
Proof. vm_compute. reflexivity. Defined.

(** C2, as amended, on the sample site. *)
Lemma statistics_emitted_as_computed_sample :
  exists X y XtransposeX_local Xtransposey_local,
    saved (stats_args "") "X.npy" world_after_stats = (Ok X, world_after_stats)
    /\ saved (stats_args "") "y.npy" world_after_stats = (Ok y, world_after_stats)
    /\ @calc_XtransposeX_local site3 X = Ok XtransposeX_local
    /\ @calc_Xtransposey_local site3 X y = Ok Xtransposey_local
    /\ emitted (stats_args "") "XtransposeX_local" world_after_stats
         = (Ok (tolist XtransposeX_local), world_after_stats)
    /\ emitted (stats_args "") "Xtransposey_local" world_after_stats
         = (Ok (tolist Xtransposey_local), world_after_stats)
    /\ json_finite (tolist XtransposeX_local) = all_finite XtransposeX_local
    /\ json_finite (tolist Xtransposey_local) = all_finite Xtransposey_local.
Proof.
  exact (@statistics_emitted_as_computed site3 _ _ _ _ sample_statistics_run).
Defined.

(** C2 fails as stated: a design matrix whose one entry, 2^600, is
    finite has an infinite XᵗX (a single product, so the order of
    accumulation plays no part); the Statistics phase succeeds all
    the same and the emitted [XtransposeX_local] holds the infinity. *)
Lemma statistics_emit_infinity :
  all_finite (values design_big) = true
  /\ fst (@local_1 site_big (stats_args "") world_after_init) = Ok stats_out
  /\ fst (emitted (stats_args "") "XtransposeX_local"
            (snd (@local_1 site_big (stats_args "") world_after_init)))
     = Ok (JArr [JArr [JFloat PrimFloat.infinity]])
  /\ json_finite (JArr [JArr [JFloat PrimFloat.infinity]]) = false.
Proof. repeat split; vm_compute; reflexivity. Qed.

(** C4 fails as stated.  An image file that exists but is not a NIfTI
    image fails to load, and the exception is not handled: the subject
    is not dropped, the phase raises and nothing is written.  And a
    subject listed twice whose file is not found is dropped at its
    first visit; its second visit raises the table's [KeyError]. *)
Lemma unreadable_image_aborts :
  (fst (nib_load "/in/b.nii" world_one_unreadable) = Raise (ImageFileError "/in/b.nii")
   /\ @average_nifti_scan site3 (init_args "" 0) world_one_unreadable
      = (Raise (ImageFileError "/in/b.nii"), world_one_unreadable)
   /\ @local_0 site3 (init_args "" 0) world_one_unreadable
      = (Raise (ImageFileError "/in/b.nii"), world_one_unreadable))
  /\ (fst (nib_load "/in/b.nii" world_one_missing) = Raise (FileNotFoundError "/in/b.nii")
      /\ @average_nifti_scan site_twice (init_args "" 0) world_one_missing
         = (Raise (KeyError "b.nii"), world_one_missing)
      /\ @local_0 site_twice (init_args "" 0) world_one_missing
         = (Raise (KeyError "b.nii"), world_one_missing)).
Proof. repeat split; vm_compute; reflexivity. Qed.

End Samples.

(* ===================================================================== *)
(** * Frames and failure *)
(* ===================================================================== *)

Section Frames.

Variable R : world -> world -> Prop.
Hypothesis R_refl : forall w, R w w.
Hypothesis R_trans : forall w1 w2 w3, R w1 w2 -> R w2 w3 -> R w1 w3.

Lemma frame_bind {A B} (m : M A) (k : A -> M B) :
  preserves R m ->
  (forall a, (exists w w1, m w = (Ok a, w1)) -> preserves R (k a)) ->
  preserves R (bind m k).
Proof using R_trans.
  intros Hm Hk w r w' Hrun. unfold bind in Hrun.
  destruct (m w) as [[a|e] w1] eqn:E.
  - eapply R_trans; [exact (Hm _ _ _ E)|]. eapply Hk; [|exact Hrun]. eauto.
  - injection Hrun as <- <-. exact (Hm _ _ _ E).
Qed.

Lemma frame_lift {A} (r : result A) : preserves R (lift r).
Proof using R_refl. intros w r' w' [= _ <-]. apply R_refl. Qed.

Lemma frame_ask {A} (f : world -> result A) : preserves R (ask f).
Proof using R_refl. intros w r' w' [= _ <-]. apply R_refl. Qed.

Lemma frame_ret {A} (a : A) : preserves R (ret a).
Proof using R_refl. intros w r' w' [= _ <-]. apply R_refl. Qed.

Lemma fails_within_bind {A B} (m : M A) (k : A -> M B) :
  preserves R m ->
  (forall a, fails_within R (k a)) ->
  fails_within R (bind m k).
Proof using R_trans.
  intros Hm Hk w e w' Hrun. unfold bind in Hrun.
  destruct (m w) as [[a|e'] w1] eqn:E.
  - eapply R_trans; [exact (Hm _ _ _ E)|]. exact (Hk _ _ _ _ Hrun).
  - injection Hrun as <- <-. exact (Hm _ _ _ E).
Qed.

Lemma fails_within_last {A B} (m : M A) (k : A -> M B) :
  fails_within R m ->
  (forall a, never_raises (k a)) ->
  fails_within R (bind m k).
Proof.
  intros Hm Hk w e w' Hrun. unfold bind in Hrun.
  destruct (m w) as [[a|e'] w1] eqn:E.
  - now apply Hk in Hrun.
  - injection Hrun as <- <-. exact (Hm _ _ _ E).
Qed.

Lemma fails_within_lift {A} (r : result A) : fails_within R (lift r).
Proof using R_refl. intros w e w' [= _ <-]. apply R_refl. Qed.

Lemma fails_within_ask {A} (f : world -> result A) : fails_within R (ask f).
Proof using R_refl. intros w e w' [= _ <-]. apply R_refl. Qed.

Lemma fails_within_write path b : fails_within R (write path b).
Proof. intros w e w' Hrun. discriminate. Qed.

End Frames.

Section Untouched.

Variable names : list string.

Lemma untouched_but_refl w : untouched_but names w w.
Proof. now split. Qed.

Lemma untouched_but_trans w1 w2 w3 :
  untouched_but names w1 w2 -> untouched_but names w2 w3 ->
  untouched_but names w1 w3.
Proof.
  intros [Hs1 Hf1] [Hs2 Hf2]. split; [congruence|].
  intros path Hpath. now rewrite Hf2, Hf1.
Qed.

Lemma untouched_but_write dir name b :
  In name names ->
  preserves (untouched_but names) (write (path_join dir name) b).
Proof.
  intros Hname w r w' [= _ <-]. split; [reflexivity|].
  intros path Hpath. simpl. apply lookup_insert_ne.
  intros <-. apply Hpath. now exists dir, name.
Qed.

Lemma untouched_but_write_file args doc dir_name name :
  In name names ->
  preserves (untouched_but names) (write_file args doc dir_name name).
Proof.
  intros Hname. unfold write_file.
  apply frame_bind;
    [apply untouched_but_trans | apply frame_lift, untouched_but_refl | intros state_ _].
  apply frame_bind;
    [apply untouched_but_trans | apply frame_lift, untouched_but_refl | intros dir_ _].
  apply frame_bind;
    [apply untouched_but_trans | apply frame_lift, untouched_but_refl
    | intros path (w0 & w1 & Hpath)].
  apply lift_Ok_inv in Hpath. destruct Hpath as [Hpath _].
  apply join_Ok_inv in Hpath. destruct Hpath as (d & n & _ & [= <-] & ->).
  now apply untouched_but_write.
Qed.

(** A file of another name, in whatever directory, is not one of
    [names] when its last character tells it apart from each. *)
Lemma other_name_untouched dir name :
  name <> EmptyString ->
  Forall (fun n => n <> EmptyString /\ last_char n <> last_char name) names ->
  ~ names_one_of names (path_join dir name).
Proof.
  intros Hname Hall (dir' & n & Hin & Heq).
  rewrite List.Forall_forall in Hall. destruct (Hall n Hin) as [Hn Hlast].
  apply Hlast. rewrite <- (path_join_last dir' n Hn), <- (path_join_last dir name Hname).
  now rewrite Heq.
Qed.

End Untouched.

Section Atomic.

Lemma all_or_nothing_fails_within {A} (m : M A) :
  all_or_nothing m <-> fails_within eq m.
Proof.
  split; intros Hm w e w' Hrun.
  - symmetry. exact (Hm _ _ _ Hrun).
  - symmetry. exact (Hm _ _ _ Hrun).
Qed.

Lemma never_raises_ret {A} (a : A) : never_raises (ret a).
Proof. intros w e w'. discriminate. Qed.

Lemma never_raises_write path b : never_raises (write path b).
Proof. intros w e w'. discriminate. Qed.

(** [write_file] raises only before it writes. *)
Lemma write_file_all_or_nothing args doc dir_name name :
  fails_within eq (write_file args doc dir_name name).
Proof.
  unfold write_file.
  repeat (apply fails_within_bind;
          [intros; congruence | apply frame_lift; reflexivity | intros ?]).
  apply fails_within_write.
Qed.

End Atomic.

(* ===================================================================== *)
(** * Initialization: what the phase touches *)
(* ===================================================================== *)

Section InitializationEffects.

Context `{Collaborators}.

Lemma eq_world_trans (w1 w2 w3 : world) : w1 = w2 -> w2 = w3 -> w1 = w3.
Proof. congruence. Qed.

Lemma try_except_preserves {A} (R : world -> world -> Prop) (body handler : M A) :
  (forall w1 w2 w3, R w1 w2 -> R w2 w3 -> R w1 w3) ->
  preserves R body -> preserves R handler ->
  preserves R (try_except_FileNotFoundError body handler).
Proof.
  intros Htrans Hbody Hhandler w r w' Hrun.
  unfold try_except_FileNotFoundError in Hrun.
  destruct (body w) as [[a|e] w1] eqn:E.
  - injection Hrun as <- <-. exact (Hbody _ _ _ E).
  - destruct e; try (injection Hrun as <- <-; exact (Hbody _ _ _ E)).
    eapply Htrans; [exact (Hbody _ _ _ E) | exact (Hhandler _ _ _ Hrun)].
Qed.

(** Looking at a subject's image changes nothing. *)
Lemma visit_read_only input_dir image covar_x appended_data :
  preserves eq (visit input_dir image covar_x appended_data).
Proof.
  unfold visit, nib_load.
  apply try_except_preserves; [apply eq_world_trans | |].
  - apply frame_bind; [apply eq_world_trans | now apply frame_lift | intros path _].
    apply frame_bind; [apply eq_world_trans | now apply frame_ask | intros img _].
    destruct (unusable (fdata img)).
    + apply frame_bind; [apply eq_world_trans | now apply frame_lift | intros c _].
      now apply frame_ret.
    + apply frame_bind; [apply eq_world_trans | now apply frame_lift | intros a _].
      now apply frame_ret.
  - apply frame_bind; [apply eq_world_trans | now apply frame_lift | intros c _].
    now apply frame_ret.
Qed.

Lemma average_nifti_loop_read_only input_dir images :
  forall covar_x appended_data,
    preserves eq (average_nifti_loop input_dir images covar_x appended_data).
Proof.
  induction images as [|image rest IH]; intros covar_x appended_data; simpl.
  - now apply frame_ret.
  - apply frame_bind; [apply eq_world_trans | apply visit_read_only | intros [c a] _].
    apply IH.
Qed.

Lemma average_nifti_scan_read_only args : preserves eq (average_nifti_scan args).
Proof.
  unfold average_nifti_scan.
  apply frame_bind; [apply eq_world_trans | now apply frame_lift | intros state_ _].
  apply frame_bind; [apply eq_world_trans | now apply frame_lift | intros input_dir _].
  apply frame_bind; [apply eq_world_trans | now apply frame_lift | intros output_dir _].
  apply frame_bind; [apply eq_world_trans | now apply frame_ask | intros [covar_x meta] _].
  apply frame_bind;
    [apply eq_world_trans | apply average_nifti_loop_read_only | intros [c a] _].
  now apply frame_ret.
Qed.

(** X1: [average_nifti] writes at its very end only.  When it raises,
    whatever the reason, no file has changed; when it returns, the one
    change is the file [avg_nifti.nii] of the transfer directory, which
    now holds a NIfTI image.  It never prints. *)
Theorem average_nifti_writes_last args w :
  let r := average_nifti args w in
  (forall e, fst r = Raise e -> snd r = w)
  /\ (forall u, fst r = Ok u ->
      exists state_ output_dir img,
        getitem args "state" = Ok state_
        /\ getitem state_ "transferDirectory" = Ok (JStr output_dir)
        /\ snd r =
             {| fs := <[path_join output_dir "avg_nifti.nii" := NiftiFile img]> (fs w);
                stdout := stdout w |}).
Proof.
  intros r. subst r. destruct (average_nifti args w) as [res w'] eqn:Hrun.
  simpl. split.
  - intros e ->. revert Hrun. unfold average_nifti.
    assert (Hfail : fails_within eq (average_nifti args)).
    { unfold average_nifti, nib_load, nib_save.
      apply fails_within_bind;
        [apply eq_world_trans | apply average_nifti_scan_read_only
        | intros [[[input_dir output_dir] covar_x] appended_data]].
      repeat (apply fails_within_bind;
              [apply eq_world_trans
              | first [now apply frame_lift | now apply frame_ask]
              | intros ?]).
      apply fails_within_write. }
    intros Hrun. symmetry. exact (Hfail _ _ _ Hrun).
  - intros u ->. unfold average_nifti in Hrun.
    step_run Hrun. destruct a as [[[input_dir output_dir] covar_x] appended_data].
    pose proof (average_nifti_scan_read_only _ _ _ _ Hm) as <-.
    unfold average_nifti_scan in Hm. step_run Hm. step_run Hm. step_run Hm.
    unfold nib_load, nib_save in Hrun. unpack_run.
    repeat match goal with
      | Hr : ret _ _ = (Ok _, _) |- _ => apply ret_inv in Hr; destruct Hr as [Hr ->]
      end.
    resolve_paths.
    do 3 eexists. split; [eassumption|]. split; [eassumption|]. reflexivity.
Qed.

End InitializationEffects.

(* ===================================================================== *)
(** * Initialization: who stays, and what a NaN does *)
(* ===================================================================== *)

Section Exclusion.

Context `{Collaborators}.

Variable w : world.
Variable input_dir : string.

Lemma drop_Ok label covar_x covar_x' :
  drop label covar_x = Ok covar_x' -> covar_x' = without [label] covar_x.
Proof.
  intros Hdrop.
  destruct (in_dec string_dec label (index covar_x)) as [Hin|Hnin].
  - rewrite (drop_in _ _ Hin) in Hdrop. now injection Hdrop.
  - rewrite (drop_not_in _ _ Hnin) in Hdrop. discriminate.
Qed.

(** A loop that ends without an exception has met no unreadable file
    and has dropped the rows of the excluded labels, and only those. *)
Lemma loop_success images :
  forall covar_x appended_data covar_x' appended_data' w',
    average_nifti_loop (JStr input_dir) images covar_x appended_data w
      = (Ok (covar_x', appended_data'), w') ->
    covar_x' = without (List.filter (excluded w input_dir) images) covar_x
    /\ Forall (fun image => inspect w input_dir image <> Unreadable) images.
Proof.
  induction images as [|image rest IH];
    intros covar_x appended_data covar_x' appended_data' w' Hrun.
  - simpl in Hrun. apply ret_inv in Hrun. destruct Hrun as [[= -> ->] _].
    split; [now rewrite without_nil | constructor].
  - simpl average_nifti_loop in Hrun. step_run Hrun. destruct a as [c a].
    pose proof (visit_read_only _ _ _ _ _ _ _ Hm) as <-.
    simpl List.filter. unfold excluded at 1.
    destruct (inspect w input_dir image) as [| |image_data|] eqn:E.
    + rewrite visit_excluded in Hm by (unfold excluded; now rewrite E).
      destruct (drop image covar_x) as [c0|e] eqn:Ed; [|discriminate].
      injection Hm as <- <-. apply drop_Ok in Ed. subst c0.
      destruct (IH _ _ _ _ _ Hrun) as [-> Hread].
      split; [now rewrite without_cons|].
      constructor; [congruence | exact Hread].
    + rewrite visit_excluded in Hm by (unfold excluded; now rewrite E).
      destruct (drop image covar_x) as [c0|e] eqn:Ed; [|discriminate].
      injection Hm as <- <-. apply drop_Ok in Ed. subst c0.
      destruct (IH _ _ _ _ _ Hrun) as [-> Hread].
      split; [now rewrite without_cons|].
      constructor; [congruence | exact Hread].
    + rewrite (visit_usable _ _ _ _ _ _ E) in Hm.
      destruct (iadd appended_data image_data) as [a0|e]; [|discriminate].
      injection Hm as <- <-.
      destruct (IH _ _ _ _ _ Hrun) as [-> Hread].
      split; [reflexivity|]. constructor; [congruence | exact Hread].
    + rewrite (visit_unreadable _ _ _ _ _ E) in Hm. discriminate.
Qed.

(** X2: whenever the loop of [average_nifti] ends without an exception
    (labels unique or not, volumes of one size or not), the covariate
    table it leaves is the table it was given restricted, in order, to
    the subjects whose image loaded and is usable: no subject with a
    missing, empty, all-NaN or all-zero image is left, none with a
    usable image is lost, and no file has changed. *)
Theorem loop_leaves_usable_subjects
    args state_ covar_x meta input_dir' output_dir covar_x' appended_data w' :
  getitem args "state" = Ok state_ ->
  getitem state_ "baseDirectory" = Ok (JStr input_dir) ->
  parse_for_covar_info args w = Ok (covar_x, meta) ->
  average_nifti_scan args w
    = (Ok (input_dir', output_dir, covar_x', appended_data), w') ->
  w' = w
  /\ covar_x' = retained_table w input_dir covar_x
  /\ (forall image,
        In image (index covar_x') <->
        In image (index covar_x) /\ retained w input_dir image = true)
  /\ length (index covar_x') <= length (index covar_x).
Proof.
  intros Hstate Hin Hparse Hscan.
  pose proof (average_nifti_scan_read_only _ _ _ _ Hscan) as <-.
  unfold average_nifti_scan in Hscan. unpack_run.
  repeat match goal with
    | Hr : ret _ _ = (Ok _, _) |- _ => apply ret_inv in Hr; destruct Hr as [Hr _]
    end.
  resolve_paths.
  match goal with
  | Hl : average_nifti_loop _ _ _ _ _ = (Ok _, _) |- _ =>
      apply loop_success in Hl; destruct Hl as [-> Hread]
  end.
  rewrite (without_excluded _ _ _ Hread).
  split; [reflexivity|]. split; [reflexivity|]. split.
  - intros image. apply retained_table_index.
  - unfold index, retained_table. simpl. rewrite !length_map.
    apply filter_length_le.
Qed.

End Exclusion.

(* ===================================================================== *)
(** * Initialization: the phase as a whole *)
(* ===================================================================== *)

Section InitializationPhase.

Context `{Collaborators}.

Lemma untouched_but_mono names names' w w' :
  incl names names' -> untouched_but names w w' -> untouched_but names' w w'.
Proof.
  intros Hincl [Hout Hfs]. split; [exact Hout|].
  intros path Hpath. apply Hfs. intros (dir & name & Hin & ->).
  apply Hpath. exists dir, name. split; [now apply Hincl | reflexivity].
Qed.

Lemma preserves_mono {A} names names' (m : M A) :
  incl names names' ->
  preserves (untouched_but names) m -> preserves (untouched_but names') m.
Proof. intros Hincl Hm w r w' Hrun. eapply untouched_but_mono; eauto. Qed.

Lemma read_only_preserves {A} names (m : M A) :
  preserves eq m -> preserves (untouched_but names) m.
Proof. intros Hm w r w' Hrun. rewrite <- (Hm _ _ _ Hrun). apply untouched_but_refl. Qed.

Lemma all_or_nothing_untouched {A} names (m : M A) :
  fails_within eq m -> fails_within (untouched_but names) m.
Proof. intros Hm w e w' Hrun. rewrite <- (Hm _ _ _ Hrun). apply untouched_but_refl. Qed.

(** [average_nifti] changes no file but [avg_nifti.nii]. *)
Lemma average_nifti_frame args :
  preserves (untouched_but ["avg_nifti.nii"]) (average_nifti args).
Proof.
  unfold average_nifti, nib_load, nib_save.
  apply frame_bind;
    [apply untouched_but_trans
    | apply read_only_preserves, average_nifti_scan_read_only
    | intros [[[input_dir output_dir] covar_x] appended_data] _].
  apply frame_bind;
    [apply untouched_but_trans | apply frame_lift, untouched_but_refl | intros first _].
  apply frame_bind;
    [apply untouched_but_trans | apply frame_lift, untouched_but_refl | intros path _].
  apply frame_bind;
    [apply untouched_but_trans | apply frame_ask, untouched_but_refl | intros img _].
  apply frame_bind;
    [apply untouched_but_trans | apply frame_lift, untouched_but_refl | intros avg _].
  apply frame_bind;
    [apply untouched_but_trans | apply frame_lift, untouched_but_refl
    | intros output_file (w0 & w1 & Hfile)].
  apply lift_Ok_inv in Hfile. destruct Hfile as [Hfile _].
  apply join_Ok_inv in Hfile. destruct Hfile as (d & n & _ & [= <-] & ->).
  apply untouched_but_write. now left.
Qed.

(** A successful run of [local_0], read off its code. *)
Lemma local_0_run args w out w' :
  local_0 args w = (Ok out, w') ->
  exists categorical_dict input_ threshold voxel_size,
    parse_for_categorical args w = Ok categorical_dict
    /\ getitem args "input" = Ok input_
    /\ getitem input_ "threshold" = Ok threshold
    /\ getitem input_ "voxel_size" = Ok voxel_size
    /\ out = JObj [("output",
                    JObj [("categorical_dict", categorical_dict);
                          ("threshold", threshold);
                          ("voxel_size", voxel_size);
                          ("avg_nifti", JStr "avg_nifti.nii");
                          ("computation_phase", JStr "local_0")]);
                   ("cache", JObj [])]
    /\ read_file args "cache" "args_file" w' = (Ok args, w')
    /\ stdout w' = stdout w.
Proof.
  intros Hrun. unfold local_0 in Hrun.
  step_run Hrun. apply ask_Ok_inv in Hm. destruct Hm as [Hcat ->].
  step_run Hrun. rename Hm into Havg.
  destruct (average_nifti_frame _ _ _ _ Havg) as [Hout _].
  unfold write_file in Hrun. unpack_run. resolve_paths.
  do 4 eexists. repeat split; try eassumption.
  - unfold read_file, bind, lift, ask. replay_lookups. simpl.
    now rewrite lookup_insert_eq.
Qed.

(** X4: a successful Initialization returns the document of lines
    89-101 (the categorical dictionary of the parser, the threshold and
    the voxel size of the message, the name of the average image, the
    tag [local_0], an empty cache section), has stored the whole
    incoming message under [args_file] in the cache directory, where
    reading it back gives the message again, and has printed nothing. *)
Theorem local_0_caches_its_message args w out w' :
  local_0 args w = (Ok out, w') ->
  exists categorical_dict input_ threshold voxel_size,
    parse_for_categorical args w = Ok categorical_dict
    /\ getitem args "input" = Ok input_
    /\ getitem input_ "threshold" = Ok threshold
    /\ getitem input_ "voxel_size" = Ok voxel_size
    /\ out = JObj [("output",
                    JObj [("categorical_dict", categorical_dict);
                          ("threshold", threshold);
                          ("voxel_size", voxel_size);
                          ("avg_nifti", JStr "avg_nifti.nii");
                          ("computation_phase", JStr "local_0")]);
                   ("cache", JObj [])]
    /\ read_file args "cache" "args_file" w' = (Ok args, w')
    /\ stdout w' = stdout w.
Proof. exact (local_0_run args w out w'). Qed.

(** [local_0] changes no file but [avg_nifti.nii] and [args_file]. *)
Lemma local_0_frame args :
  preserves (untouched_but ["avg_nifti.nii"; "args_file"]) (local_0 args).
Proof.
  unfold local_0.
  apply frame_bind;
    [apply untouched_but_trans | apply frame_ask, untouched_but_refl | intros cd _].
  apply frame_bind;
    [apply untouched_but_trans
    | apply (preserves_mono ["avg_nifti.nii"]);
        [intros n [<-|[]]; now left | apply average_nifti_frame]
    | intros u _].
  repeat (apply frame_bind;
          [apply untouched_but_trans | apply frame_lift, untouched_but_refl
          | intros ? _]).
  apply frame_bind;
    [apply untouched_but_trans
    | apply untouched_but_write_file; right; now left
    | intros ? _].
  apply frame_ret, untouched_but_refl.
Qed.

(** X5: whatever its input and outcome, [local_0] prints nothing and
    changes no file but [avg_nifti.nii] and [args_file]; and when it
    raises, [args_file] has not been written either: a failed
    Initialization leaves the cache as it found it. *)
Theorem local_0_effects args w :
  let r := local_0 args w in
  untouched_but ["avg_nifti.nii"; "args_file"] w (snd r)
  /\ (forall e, fst r = Raise e ->
      untouched_but ["avg_nifti.nii"] w (snd r)
      /\ forall cache_dir,
          fs (snd r) !! path_join cache_dir "args_file"
            = fs w !! path_join cache_dir "args_file").
Proof.
  intros r. subst r. destruct (local_0 args w) as [res w'] eqn:Hrun. simpl.
  split.
  - exact (local_0_frame args _ _ _ Hrun).
  - intros e ->.
    assert (Hfail : fails_within (untouched_but ["avg_nifti.nii"]) (local_0 args)).
    { unfold local_0.
      apply fails_within_bind;
        [apply untouched_but_trans | apply frame_ask, untouched_but_refl | intros cd].
      apply fails_within_bind;
        [apply untouched_but_trans | apply average_nifti_frame | intros u].
      repeat (apply fails_within_bind;
              [apply untouched_but_trans | apply frame_lift, untouched_but_refl
              | intros ?]).
      apply fails_within_last.
      - apply all_or_nothing_untouched, write_file_all_or_nothing.
      - intros ?. apply never_raises_ret. }
    pose proof (Hfail _ _ _ Hrun) as Hw. split; [exact Hw|].
    intros cache_dir. destruct Hw as [_ Hfs]. apply Hfs.
    apply other_name_untouched; [discriminate|].
    repeat constructor; discriminate.
Qed.

End InitializationPhase.

(* ===================================================================== *)
(** * Statistics: the phase as a whole *)
(* ===================================================================== *)

Section StatisticsPhase.

Context `{Collaborators}.

Lemma read_file_read_only args dir_name file_name :
  preserves eq (read_file args dir_name file_name).
Proof.
  unfold read_file.
  repeat (apply frame_bind;
          [apply eq_world_trans | now apply frame_lift | intros ? _]).
  now apply frame_ask.
Qed.

Lemma joined_name dir name path :
  (exists w w1 : world, lift (join dir (JStr name)) w = (Ok path, w1)) ->
  exists d, path = path_join d name.
Proof.
  intros (w0 & w1 & Hpath). apply lift_Ok_inv in Hpath. destruct Hpath as [Hpath _].
  apply join_Ok_inv in Hpath. destruct Hpath as (d & n & _ & [= <-] & ->).
  now exists d.
Qed.

Lemma local_1_frame args :
  preserves (untouched_but ["X.npy"; "y.npy"; "local_output"]) (local_1 args).
Proof.
  pose proof (untouched_but_trans ["X.npy"; "y.npy"; "local_output"]) as Htrans.
  pose proof (untouched_but_refl ["X.npy"; "y.npy"; "local_output"]) as Hrefl.
  unfold local_1, np_save.
  apply frame_bind; [exact Htrans | now apply frame_lift | intros state_ _].
  apply frame_bind; [exact Htrans | now apply frame_lift | intros cache_ _].
  apply frame_bind;
    [exact Htrans | apply read_only_preserves, read_file_read_only
    | intros original_args _].
  apply frame_bind; [exact Htrans | now apply frame_lift | intros input_ _].
  apply frame_bind; [exact Htrans | now apply frame_lift | intros lambda _].
  apply frame_bind; [exact Htrans | now apply frame_ask | intros [[encoded_X X] y] _].
  apply frame_bind; [exact Htrans | now apply frame_lift | intros [meanY lenY] _].
  apply frame_bind; [exact Htrans | now apply frame_ask | intros [first stats] _].
  apply frame_bind; [exact Htrans | now apply frame_ask | intros augmented_X _].
  apply frame_bind; [exact Htrans | now apply frame_lift | intros XtX _].
  apply frame_bind; [exact Htrans | now apply frame_lift | intros Xty _].
  apply frame_bind; [exact Htrans | now apply frame_lift | intros X_path HX].
  apply joined_name in HX. destruct HX as [d ->].
  apply frame_bind;
    [exact Htrans | apply untouched_but_write; simpl; tauto | intros u _].
  apply frame_bind; [exact Htrans | now apply frame_lift | intros y_path Hy].
  apply joined_name in Hy. destruct Hy as [d' ->].
  apply frame_bind;
    [exact Htrans | apply untouched_but_write; simpl; tauto | intros u' _].
  apply frame_bind;
    [exact Htrans | apply untouched_but_write_file; simpl; tauto | intros u'' _].
  now apply frame_ret.
Qed.

(** X6: whatever its input and outcome, [local_1] prints nothing and
    changes no file but [X.npy], [y.npy] and [local_output]; the cached
    message [args_file] it reads is left as it was. *)
Theorem local_1_effects args w :
  let r := local_1 args w in
  untouched_but ["X.npy"; "y.npy"; "local_output"] w (snd r)
  /\ forall cache_dir,
      fs (snd r) !! path_join cache_dir "args_file"
        = fs w !! path_join cache_dir "args_file".
Proof.
  intros r. subst r. destruct (local_1 args w) as [res w'] eqn:Hrun. simpl.
  pose proof (local_1_frame args _ _ _ Hrun) as Hw. split; [exact Hw|].
  intros cache_dir. destruct Hw as [_ Hfs]. apply Hfs.
  apply other_name_untouched; [discriminate|].
  repeat constructor; discriminate.
Qed.

End StatisticsPhase.

Section StatisticsRuns.

Context `{Collaborators}.

(** A successful run of [local_1] in full: what it read, what the
    collaborators returned, what it computed and what it emitted. *)
Lemma local_1_run_full args w out w' :
  local_1 args w = (Ok out, w') ->
  exists original_args input_ regularizer_l2 encoded_X X y
         meanY_vector lenY_vector first local_stats_list augmented_X
         XtransposeX_local Xtransposey_local,
    read_file args "cache" "args_file" w = (Ok original_args, w)
    /\ getitem original_args "input" = Ok input_
    /\ getitem input_ "lambda" = Ok regularizer_l2
    /\ vbm_parser original_args w = Ok (encoded_X, X, y)
    /\ mean_and_len_y y = Ok (meanY_vector, lenY_vector)
    /\ local_stats_to_dict_numba args encoded_X y w = Ok (first, local_stats_list)
    /\ add_site_covariates args original_args X w = Ok augmented_X
    /\ calc_XtransposeX_local (values augmented_X) = Ok XtransposeX_local
    /\ calc_Xtransposey_local (values augmented_X) y = Ok Xtransposey_local
    /\ read_file args "output" "local_output" w' =
         (Ok (local_1_output_dict XtransposeX_local Xtransposey_local
                meanY_vector lenY_vector local_stats_list
                (columns augmented_X) regularizer_l2), w')
    /\ saved args "X.npy" w' = (Ok (values augmented_X), w')
    /\ saved args "y.npy" w' = (Ok y, w')
    /\ out = JObj [("output", JObj [("computation_phase", JStr "local_1")]);
                   ("cache", JObj [("covariates", JStr "X.npy");
                                   ("dependents", JStr "y.npy")])].
Proof.
  intros Hrun. unfold local_1, np_save in Hrun.
  step_run Hrun. step_run Hrun. step_run Hrun.
  rename Hm1 into Hread.
  pose proof (read_file_read_only _ _ _ _ _ _ Hread) as <-.
  unfold write_file in Hrun. unpack_run. resolve_paths.
  do 13 eexists.
  split; [exact Hread|].
  repeat (split; [eassumption|]).
  cbn [fs stdout].
  match goal with
  | |- context [<[path_join ?o "local_output" := _]> (<[path_join ?c "y.npy" := _]> _)] =>
      assert (HXy : path_join c "X.npy" <> path_join c "y.npy")
        by (intros E; apply path_join_inj in E; [discriminate | reflexivity ..]);
      assert (HXo : path_join o "local_output" <> path_join c "X.npy")
        by (apply path_join_last_neq; discriminate);
      assert (Hyo : path_join o "local_output" <> path_join c "y.npy")
        by (apply path_join_last_neq; discriminate)
  end.
  split; [|split; [|split; [|reflexivity]]].
  - unfold read_file, bind, lift, ask. replay_lookups. simpl.
    now rewrite lookup_insert_eq.
  - unfold saved, bind, lift, np_load, ask. replay_lookups. simpl.
    rewrite lookup_insert_ne by assumption.
    rewrite lookup_insert_ne by (intros E; now apply HXy).
    now rewrite lookup_insert_eq.
  - unfold saved, bind, lift, np_load, ask. replay_lookups. simpl.
    rewrite lookup_insert_ne by assumption.
    now rewrite lookup_insert_eq.
Qed.

Lemma emitted_field args w doc field :
  read_file args "output" "local_output" w = (Ok doc, w) ->
  emitted args field w = (getitem doc field, w).
Proof. intros Hdoc. unfold emitted. now erewrite bind_eval by exact Hdoc. Qed.

Lemma calc_Xtransposey_local_inv X y Xty :
  calc_Xtransposey_local X y = Ok Xty ->
  shape0 X = shape0 y
  /\ Xty = tabulate (shape1 X) (shape1 y) (numba_dot (T X) y).
Proof.
  unfold calc_Xtransposey_local. intros Hrun.
  apply matmul_inv in Hrun. exact Hrun.
Qed.

Lemma calc_XtransposeX_local_inv X XtX :
  calc_XtransposeX_local X = Ok XtX ->
  XtX = tabulate (shape1 X) (shape1 X) (numba_dot (T X) X).
Proof.
  unfold calc_XtransposeX_local. intros Hrun.
  apply matmul_inv in Hrun. now destruct Hrun.
Qed.

(** X7: a successful Statistics phase has cached a design and a
    response matrix with the same number of rows, and what it emits
    fits them: with p design columns and v voxels, [X_labels] has p
    entries, [XtransposeX_local] is a p by p and [Xtransposey_local] a
    p by v nested list. *)
Theorem statistics_shapes args w out w' :
  local_1 args w = (Ok out, w') ->
  exists X y labels XtX Xty,
    saved args "X.npy" w' = (Ok X, w')
    /\ saved args "y.npy" w' = (Ok y, w')
    /\ shape0 X = shape0 y
    /\ emitted args "X_labels" w' = (Ok (JArr (map JStr labels)), w')
    /\ length labels = shape1 X
    /\ emitted args "XtransposeX_local" w' = (Ok XtX, w')
    /\ json_matrix_shape (shape1 X) (shape1 X) XtX
    /\ emitted args "Xtransposey_local" w' = (Ok Xty, w')
    /\ json_matrix_shape (shape1 X) (shape1 y) Xty.
Proof.
  intros Hrun.
  destruct (local_1_run_full _ _ _ _ Hrun)
    as (original_args & input_ & lam & encoded_X & X & y & meanY & lenY & first
        & stats & augmented_X & XtX & Xty & _ & _ & _ & _ & _ & _ & _
        & HXtX & HXty & Hdoc & HsX & Hsy & _).
  apply calc_XtransposeX_local_inv in HXtX. subst XtX.
  apply calc_Xtransposey_local_inv in HXty. destruct HXty as [Hrows ->].
  exists (values augmented_X), y, (columns augmented_X). do 2 eexists.
  split; [exact HsX|]. split; [exact Hsy|]. split; [exact Hrows|].
  split; [rewrite (emitted_field _ _ _ _ Hdoc); reflexivity|].
  split; [reflexivity|].
  split; [rewrite (emitted_field _ _ _ _ Hdoc); reflexivity|].
  split; [apply (tolist_shape (tabulate _ _ _)), tabulate_well_formed|].
  split; [rewrite (emitted_field _ _ _ _ Hdoc); reflexivity|].
  apply (tolist_shape (tabulate _ _ _)), tabulate_well_formed.
Qed.

(** X8: the regularizer is the one cached at Initialization.  After a
    successful [local_0] on a message, a successful [local_1] on a
    message with the same [state] hands the Initialization message, not
    its own, to [vbm_parser] and emits that message's [lambda]. *)
Theorem lambda_carried_from_initialization args0 args1 w out0 w1 out1 w2 :
  local_0 args0 w = (Ok out0, w1) ->
  getitem args1 "state" = getitem args0 "state" ->
  local_1 args1 w1 = (Ok out1, w2) ->
  exists input_ regularizer_l2 tables,
    getitem args0 "input" = Ok input_
    /\ getitem input_ "lambda" = Ok regularizer_l2
    /\ vbm_parser args0 w1 = Ok tables
    /\ emitted args1 "lambda" w2 = (Ok regularizer_l2, w2).
Proof.
  intros Hinit Hstate Hstats.
  destruct (local_0_run _ _ _ _ Hinit)
    as (_ & _ & _ & _ & _ & _ & _ & _ & _ & Hcached & _).
  destruct (local_1_run_full _ _ _ _ Hstats)
    as (original_args & input_ & lam & encoded_X & X & y & meanY & lenY & first
        & stats & augmented_X & XtX & Xty & Hread & Hinput & Hlam & Hparse & _ & _ & _
        & _ & _ & Hdoc & _).
  assert (Hsame : read_file args1 "cache" "args_file" w1
                  = read_file args0 "cache" "args_file" w1)
    by (unfold read_file, bind, lift; now rewrite Hstate).
  rewrite Hsame, Hcached in Hread. injection Hread as <-.
  exists input_, lam, (encoded_X, X, y). repeat split; try assumption.
  rewrite (emitted_field _ _ _ _ Hdoc). reflexivity.
Qed.

(** X9: the Decomposition phase picks up what the Statistics phase
    left.  When [local_2] runs on a message whose [state] is that of
    the Statistics message and whose [cache] section is the one
    [local_1] returned, it loads the very matrices [local_1] cached;
    and the [varX_matrix_local] it emits is not the [XtransposeX_local]
    that [local_1] emitted handed on, but a product computed anew from
    the cached design matrix, by [np.dot] where [local_1] used numba's
    [@]. *)
Theorem decomposition_reads_cached_matrices args1 args2 w out1 w1 out2 w2 :
  local_1 args1 w = (Ok out1, w1) ->
  getitem args2 "state" = getitem args1 "state" ->
  getitem args2 "cache" = getitem out1 "cache" ->
  local_2 args2 w1 = (Ok out2, w2) ->
  cached args2 "covariates" w1 = saved args1 "X.npy" w1
  /\ cached args2 "dependents" w1 = saved args1 "y.npy" w1
  /\ exists X XtransposeX_local varX_matrix_local,
      saved args1 "X.npy" w1 = (Ok X, w1)
      /\ calc_XtransposeX_local X = Ok XtransposeX_local
      /\ emitted args1 "XtransposeX_local" w1 = (Ok (tolist XtransposeX_local), w1)
      /\ matmul np_dot (T X) X = Ok varX_matrix_local
      /\ emitted args2 "varX_matrix_local" w2 = (Ok (tolist varX_matrix_local), w2).
Proof.
  intros Hstats Hstate Hcache Hdecomp.
  destruct (local_1_run_full _ _ _ _ Hstats)
    as (original_args & input_ & lam & encoded_X & X & y & meanY & lenY & first
        & stats & augmented_X & XtX & Xty & _ & _ & _ & _ & _ & _ & _
        & HXtX & _ & Hdoc1 & HsX & Hsy & ->).
  assert (Hsaved : forall name, saved args2 name w1 = saved args1 name w1)
    by (intros name; unfold saved, bind, lift; now rewrite Hstate).
  assert (HcX : cached args2 "covariates" w1 = saved args1 "X.npy" w1).
  { unfold cached. unfold bind at 1 2 3. unfold lift. rewrite Hcache. simpl.
    apply Hsaved. }
  assert (Hcy : cached args2 "dependents" w1 = saved args1 "y.npy" w1).
  { unfold cached. unfold bind at 1 2 3. unfold lift. rewrite Hcache. simpl.
    apply Hsaved. }
  split; [exact HcX|]. split; [exact Hcy|].
  destruct (local_2_run _ _ _ _ Hdecomp)
    as (X2 & y2 & per_voxel & varX & HX2 & _ & _ & _ & HvarX & Hdoc2 & _).
  rewrite HcX, HsX in HX2. injection HX2 as <-.
  exists (values augmented_X), XtX, varX.
  split; [exact HsX|]. split; [exact HXtX|].
  split; [rewrite (emitted_field _ _ _ _ Hdoc1); reflexivity|].
  split; [exact HvarX|].
  rewrite (emitted_field _ _ _ _ Hdoc2). reflexivity.
Qed.

End StatisticsRuns.

(* ===================================================================== *)
(** * Decomposition and dispatch: failure and output *)
(* ===================================================================== *)

Section Outcomes.

Context `{Collaborators}.

Lemma local_2_fails_clean args : fails_within eq (local_2 args).
Proof.
  unfold local_2, np_load.
  repeat (apply fails_within_bind;
          [apply eq_world_trans
          | first [now apply frame_lift | now apply frame_ask]
          | intros ?]).
  apply fails_within_last.
  - apply write_file_all_or_nothing.
  - intros ?. apply never_raises_ret.
Qed.

(** X10: [local_2] is all or nothing.  Whatever makes it raise (a
    missing key of the message, a missing or foreign cache file, too
    few global coefficients or means, a value of the wrong type), it
    has then written no file and printed nothing: its one write, of
    [local_output], comes after everything that can fail. *)
Theorem local_2_all_or_nothing args w e w' :
  local_2 args w = (Raise e, w') -> w' = w.
Proof.
  intros Hrun. symmetry. exact (local_2_fails_clean _ _ _ _ Hrun).
Qed.

(** What a handler followed by [sys.stdout.write] does to the world. *)
Lemma print_after (handler : M json) w :
  (forall r w', handler w = (r, w') -> stdout w' = stdout w) ->
  let r := bind handler stdout_write w in
  (forall e, fst r = Raise e -> stdout (snd r) = stdout w)
  /\ (forall u, fst r = Ok u ->
      exists out w1,
        handler w = (Ok out, w1)
        /\ stdout (snd r) = (stdout w ++ [out])%list).
Proof.
  intros Hquiet r. subst r. unfold bind.
  destruct (handler w) as [[out|e] w1] eqn:Hrun; simpl.
  - split; [discriminate|]. intros _ _. exists out, w1.
    split; [reflexivity|]. now rewrite (Hquiet _ _ eq_refl).
  - split; [|discriminate]. intros _ _. exact (Hquiet _ _ eq_refl).
Qed.

(** X11: a run of the dispatcher prints at most one document, and
    exactly one when it succeeds: on failure (the protocol error or an
    exception of the selected phase) standard output is as it was; on
    success it has grown by the one document the selected phase
    returned, which has an [output] section tagged [local_0], [local_1]
    or [local_2] and a [cache] section. *)
Theorem main_prints_one_document args w :
  let r := main args w in
  (forall e, fst r = Raise e -> stdout (snd r) = stdout w)
  /\ (forall u, fst r = Ok u ->
      exists doc output cache_ tag,
        stdout (snd r) = (stdout w ++ [doc])%list
        /\ getitem doc "output" = Ok output
        /\ getitem output "computation_phase" = Ok (JStr tag)
        /\ In tag ["local_0"; "local_1"; "local_2"]
        /\ getitem doc "cache" = Ok cache_).
Proof.
  unfold main.
  destruct (py_not (list_recursive args "computation_phase")).
  { destruct (print_after (local_0 args) w) as [Hfail Hok].
    - intros r w' Hrun. now destruct (local_0_frame _ _ _ _ Hrun).
    - split; [exact Hfail|]. intros u Hu.
      destruct (Hok u Hu) as (out & w1 & Hrun & Hout).
      destruct (local_0_run _ _ _ _ Hrun)
        as (cd & input_ & th & vs & _ & _ & _ & _ & -> & _).
      do 4 eexists. split; [exact Hout|]. split; [reflexivity|].
      split; [reflexivity|]. split; [|reflexivity]. simpl. tauto. }
  destruct (str_in "remote_0" (list_recursive args "computation_phase")).
  { destruct (print_after (local_1 args) w) as [Hfail Hok].
    - intros r w' Hrun. now destruct (local_1_frame _ _ _ _ Hrun).
    - split; [exact Hfail|]. intros u Hu.
      destruct (Hok u Hu) as (out & w1 & Hrun & Hout).
      destruct (local_1_run_full _ _ _ _ Hrun)
        as (? & ? & ? & ? & ? & ? & ? & ? & ? & ? & ? & ? & ? & _ & _ & _ & _ & _
            & _ & _ & _ & _ & _ & _ & _ & ->).
      do 4 eexists. split; [exact Hout|]. split; [reflexivity|].
      split; [reflexivity|]. split; [|reflexivity]. simpl. tauto. }
  destruct (str_in "remote_1" (list_recursive args "computation_phase")).
  { destruct (print_after (local_2 args) w) as [Hfail Hok].
    - intros r w' Hrun. now destruct (local_2_preserves _ _ _ _ Hrun).
    - split; [exact Hfail|]. intros u Hu.
      destruct (Hok u Hu) as (out & w1 & Hrun & Hout).
      destruct (local_2_run _ _ _ _ Hrun)
        as (? & ? & ? & ? & _ & _ & _ & _ & _ & _ & ->).
      do 4 eexists. split; [exact Hout|]. split; [reflexivity|].
      split; [reflexivity|]. split; [|reflexivity]. simpl. tauto. }
  simpl. split; [reflexivity | discriminate].
Qed.

End Outcomes.

(* ===================================================================== *)
(** * The two products *)
(* ===================================================================== *)

Section Products.

Context `{Collaborators}.


End Products.

(* ===================================================================== *)
(** * More sample runs *)
(* ===================================================================== *)

Section MoreSamples.

Import Fixtures MoreFixtures.

(** The Initialization phase succeeds on the sample site. *)
Lemma sample_initialization_runs :
  @local_0 site3 (init_args "" 0) world_one_nan = (Ok init_out, world_after_init).
Proof. vm_compute. reflexivity. Defined.

Lemma sample_scan_runs :
  @average_nifti_scan site3 (init_args "" 0) world_one_nan =
    (Ok (JStr "/in", JStr "/transfer",
         retained_table world_one_nan "/in" covar3,
         Some {| vshape := [2]; vdata := [4%float; 7%float] |}), world_one_nan).
Proof. vm_compute. reflexivity. Defined.

(** X2 on the site one of whose three images is entirely NaN. *)
Lemma loop_leaves_usable_subjects_sample :
  (forall image,
        In image (index (retained_table world_one_nan "/in" covar3)) <->
        In image (index covar3) /\ retained world_one_nan "/in" image = true)
  /\ length (index (retained_table world_one_nan "/in" covar3))
     <= length (index covar3).
Proof.
  exact (proj2 (proj2
           (@loop_leaves_usable_subjects site3 world_one_nan "/in"
              (init_args "" 0) (directories "") covar3 JNull _ _ _ _ _
              eq_refl eq_refl eq_refl sample_scan_runs))).
Defined.

(** X4 on the sample site. *)
Lemma local_0_caches_its_message_sample :
  exists categorical_dict input_ threshold voxel_size,
    @parse_for_categorical site3 (init_args "" 0) world_one_nan = Ok categorical_dict
    /\ getitem (init_args "" 0) "input" = Ok input_
    /\ getitem input_ "threshold" = Ok threshold
    /\ getitem input_ "voxel_size" = Ok voxel_size
    /\ init_out = JObj [("output",
                         JObj [("categorical_dict", categorical_dict);
                               ("threshold", threshold);
                               ("voxel_size", voxel_size);
                               ("avg_nifti", JStr "avg_nifti.nii");
                               ("computation_phase", JStr "local_0")]);
                        ("cache", JObj [])]
    /\ read_file (init_args "" 0) "cache" "args_file" world_after_init
       = (Ok (init_args "" 0), world_after_init)
    /\ stdout world_after_init = stdout world_one_nan.
Proof.
  exact (@local_0_caches_its_message site3 _ _ _ _ sample_initialization_runs).
Defined.

(** X7 on the sample site. *)
Lemma statistics_shapes_sample :
  exists X y labels XtX Xty,
    saved (stats_args "") "X.npy" world_after_stats = (Ok X, world_after_stats)
    /\ saved (stats_args "") "y.npy" world_after_stats = (Ok y, world_after_stats)
    /\ shape0 X = shape0 y
    /\ emitted (stats_args "") "X_labels" world_after_stats
       = (Ok (JArr (map JStr labels)), world_after_stats)
    /\ length labels = shape1 X
    /\ emitted (stats_args "") "XtransposeX_local" world_after_stats
       = (Ok XtX, world_after_stats)
    /\ json_matrix_shape (shape1 X) (shape1 X) XtX
    /\ emitted (stats_args "") "Xtransposey_local" world_after_stats
       = (Ok Xty, world_after_stats)
    /\ json_matrix_shape (shape1 X) (shape1 y) Xty.
Proof.
  exact (@statistics_shapes site3 _ _ _ _ sample_statistics_run).
Defined.

(** X8 on the sample site: Initialization, then Statistics. *)
Lemma lambda_carried_from_initialization_sample :
  exists input_ regularizer_l2 tables,
    getitem (init_args "" 0) "input" = Ok input_
    /\ getitem input_ "lambda" = Ok regularizer_l2
    /\ @vbm_parser site3 (init_args "" 0) world_after_init = Ok tables
    /\ emitted (stats_args "") "lambda" world_after_stats
       = (Ok regularizer_l2, world_after_stats).
Proof.
  exact (@lambda_carried_from_initialization site3 (init_args "" 0) (stats_args "")
           _ _ _ _ _
           sample_initialization_runs eq_refl sample_statistics_run).
Defined.

(** X9 on the sample site: Statistics, then Decomposition. *)
Lemma decomposition_reads_cached_matrices_sample :
  cached (decomp_args "") "covariates" world_after_stats
    = saved (stats_args "") "X.npy" world_after_stats
  /\ cached (decomp_args "") "dependents" world_after_stats
     = saved (stats_args "") "y.npy" world_after_stats
  /\ exists X XtransposeX_local varX_matrix_local,
      saved (stats_args "") "X.npy" world_after_stats = (Ok X, world_after_stats)
      /\ @calc_XtransposeX_local site3 X = Ok XtransposeX_local
      /\ emitted (stats_args "") "XtransposeX_local" world_after_stats
         = (Ok (tolist XtransposeX_local), world_after_stats)
      /\ matmul (@np_dot site3) (T X) X = Ok varX_matrix_local
      /\ emitted (decomp_args "") "varX_matrix_local" world_after_decomp
         = (Ok (tolist varX_matrix_local), world_after_decomp).
Proof.
  exact (@decomposition_reads_cached_matrices site3 (stats_args "") (decomp_args "")
           _ _ _ _ _
           sample_statistics_run eq_refl eq_refl sample_decomposition_runs).
Defined.

(** X10 on a Decomposition message that arrives before the Statistics
    phase has cached its matrices. *)
Lemma local_2_all_or_nothing_sample :
  snd (@local_2 site3 (decomp_args "") world_after_init) = world_after_init.
Proof.
  apply (@local_2_all_or_nothing site3 (decomp_args "") world_after_init
           (FileNotFoundError "/cache/X.npy")).
  vm_compute. reflexivity.
Defined.

End MoreSamples.
